(** * file_sharing: the realtime chat hook, the upload route and the
      management page, embedded from the TypeScript sources.

    - [JS]      the runtime primitives the sources rely on
                (numbers with NaN, [Array.prototype.sort], [parseInt]).
    - [Chat]    src/hooks/use-supabase-chat.ts
    - [Upload]  src/app/api/files/upload/route.ts
    - [Manage]  src/app/files/manage/[id]/page.tsx

    Strings are [string]; a character stands for one UTF-16 code unit, so
    [String.length] is the source's [.length] on the strings considered. *)

From stdpp Require Import base list strings sorting pretty gmap.
From Equations Require Import Equations.
From Stdlib Require Import ZArith Lia Ascii.

Local Open Scope Z_scope.

(* ===================================================================== *)
(** ** Runtime primitives *)
(* ===================================================================== *)

Module JS.

(** The numbers the sources compute with are integers (time values in
    milliseconds, sizes, counts) or NaN. *)
Inductive number := Num (z : Z) | NaN.

Definition sub (a b : number) : number :=
  match a, b with
  | Num x, Num y => Num (x - y)
  | _, _ => NaN
  end.

Definition isNaN (a : number) : bool :=
  match a with NaN => true | Num _ => false end.

(** [SortCompare] of ECMAScript: the comparator's result, NaN read as +0. *)
Definition SortCompare {A} (comparefn : A → A → number) (x y : A) : Z :=
  match comparefn x y with
  | Num v => v
  | NaN => 0
  end.

(** [Array.prototype.sort(comparefn)] is stable: an element moves behind
    another only when the comparator puts it strictly after. Elements are
    inserted from the right end, each in front of the first element that
    does not have to precede it. *)
Fixpoint sort_insert {A} (comparefn : A → A → number) (x : A) (l : list A)
  : list A :=
  match l with
  | [] => [x]
  | y :: l' =>
      if SortCompare comparefn x y <=? 0
      then x :: y :: l'
      else y :: sort_insert comparefn x l'
  end.

Definition Array_sort {A} (comparefn : A → A → number) (l : list A)
  : list A :=
  foldr (sort_insert comparefn) [] l.

(** [a || b] on strings that may be missing: the empty string is falsy. *)
Definition truthy (s : option string) : bool :=
  match s with
  | Some s => negb (String.eqb s "")
  | None => false
  end.

Definition or_else (s : option string) (d : string) : string :=
  match s with
  | Some s => if String.eqb s "" then d else s
  | None => d
  end.

(** An awaited promise (or a call that may throw): resolved with a value
    or rejected with an [Error] whose message is given. *)
Inductive settled (A : Type) := resolved (a : A) | rejected (msg : string).
Arguments resolved {A} a.
Arguments rejected {A} msg.

Definition add (a b : number) : number :=
  match a, b with
  | Num x, Num y => Num (x + y)
  | _, _ => NaN
  end.

Definition mul (a b : number) : number :=
  match a, b with
  | Num x, Num y => Num (x * y)
  | _, _ => NaN
  end.

(** *** parseInt(string), radix undefined *)

Definition isWhiteSpace (c : ascii) : bool :=
  let n := nat_of_ascii c in
  bool_decide (n ∈ [9; 10; 11; 12; 13; 32; 160]%nat).

Fixpoint trimStart (s : string) : string :=
  match s with
  | String c s' => if isWhiteSpace c then trimStart s' else s
  | EmptyString => s
  end.

Definition digitValue (c : ascii) : option Z :=
  let n := Z.of_nat (nat_of_ascii c) in
  if (48 <=? n) && (n <=? 57) then Some (n - 48)
  else if (97 <=? n) && (n <=? 122) then Some (n - 87)
  else if (65 <=? n) && (n <=? 90) then Some (n - 55)
  else None.

(** The longest prefix of digits of the radix; [None] when it is empty. *)
Fixpoint parseDigits (radix : Z) (s : string) (acc : option Z) : option Z :=
  match s with
  | String c s' =>
      match digitValue c with
      | Some d =>
          if d <? radix
          then parseDigits radix s' (Some (radix * default 0 acc + d))
          else acc
      | None => acc
      end
  | EmptyString => acc
  end.

Definition parseInt (input : string) : number :=
  let s1 := trimStart input in
  let '(sign, s2) :=
    match s1 with
    | String "-"%char r => (-1, r)
    | String "+"%char r => (1, r)
    | _ => (1, s1)
    end in
  let '(radix, s3) :=
    match s2 with
    | String "0"%char (String "x"%char r) => (16, r)
    | String "0"%char (String "X"%char r) => (16, r)
    | _ => (10, s2)
    end in
  match parseDigits radix s3 None with
  | Some v => Num (sign * v)
  | None => NaN
  end.

(** *** Dates *)

(** The text [Date.prototype.toISOString] renders for a time value is kept
    symbolic: [ISO t] is the ISO-8601 text of the instant [t] (ms). *)
Inductive ISOString := ISO (t : Z).

(** [new Date(v).toISOString()]: a RangeError for an invalid date, that is
    when [v] is NaN or beyond 8.64e15 ms of the epoch. The sums and products
    that reach it are exact on integers wherever they stay in that range. *)
Definition Date_toISOString (v : number) : settled ISOString :=
  match v with
  | Num t =>
      if Z.abs t <=? 8640000000000000
      then resolved (ISO t)
      else rejected "Invalid time value"
  | NaN => rejected "Invalid time value"
  end.

End JS.

(* ===================================================================== *)
(** ** The chat hook (use-supabase-chat.ts) *)
(* ===================================================================== *)

Module Chat.
Import JS.

Inductive MessageType := text | system | file.

Module ChatMessage.
Record t := mk {
  id : string;
  roomId : string;
  username : string;
  message : string;
  messageType : MessageType;
  createdAt : string;
  userId : option string
}.
End ChatMessage.

Module ChatParticipant.
Record t := mk {
  id : string;
  roomId : string;
  username : string;
  joinedAt : string;
  lastSeen : string;
  isOnline : bool;
  userId : option string
}.
End ChatParticipant.

Record ChatError := {
  code : string;
  message : string;
  timestamp : Z
}.

Record ChatState := {
  messages : list ChatMessage.t;
  participants : list ChatParticipant.t;
  isConnected : bool;
  isLoading : bool;
  error : option ChatError;
  lastMessageId : option string
}.

(** Rows as the change feed delivers them ([payload.new], snake case). *)
Record MessageRow := {
  m_id : string;
  m_room_id : string;
  m_username : string;
  m_message : string;
  m_message_type : MessageType;
  m_created_at : string;
  m_user_id : option string
}.

Record ParticipantRow := {
  p_id : string;
  p_room_id : string;
  p_username : string;
  p_joined_at : string;
  p_last_seen : string;
  p_is_online : bool;
  p_user_id : option string
}.

Definition RETRY_ATTEMPTS : nat := 3.
Definition RETRY_DELAY : Z := 1000.
Definition MESSAGE_LIMIT : Z := 100.
Definition RECONNECT_DELAY : Z := 5000.
Definition DEBOUNCE_DELAY : Z := 300.

Definition createError (now : Z) (c m : string) : ChatError :=
  {| code := c; message := m; timestamp := now |}.

(** The [useState] initial value. *)
Definition initialState : ChatState :=
  {| messages := []; participants := []; isConnected := false;
     isLoading := false; error := None; lastMessageId := None |}.

(** *** The hook instance: React state plus the refs *)

Inductive Callback := cb_reconnect.

Record Timer := { handle : nat; callback : Callback; delay : Z }.

Record Hook := {
  state : ChatState;
  isMountedRef : bool;
  channelRef : bool;                  (* a channel is held *)
  reconnectTimeoutRef : option nat;   (* handle of the stored timeout *)
  timers : list Timer;                (* pending [setTimeout]s *)
  nextHandle : nat
}.

Definition setState (f : ChatState → ChatState) (h : Hook) : Hook :=
  {| state := f (state h); isMountedRef := isMountedRef h;
     channelRef := channelRef h;
     reconnectTimeoutRef := reconnectTimeoutRef h;
     timers := timers h; nextHandle := nextHandle h |}.

Definition setError (e : option ChatError) (h : Hook) : Hook :=
  if isMountedRef h then
    setState (λ prev,
      {| messages := messages prev; participants := participants prev;
         isConnected := isConnected prev; isLoading := isLoading prev;
         error := e; lastMessageId := lastMessageId prev |}) h
  else h.

Definition setLoading (b : bool) (h : Hook) : Hook :=
  if isMountedRef h then
    setState (λ prev,
      {| messages := messages prev; participants := participants prev;
         isConnected := isConnected prev; isLoading := b;
         error := error prev; lastMessageId := lastMessageId prev |}) h
  else h.

Definition setConnected (b : bool) (h : Hook) : Hook :=
  if isMountedRef h then
    setState (λ prev,
      {| messages := messages prev; participants := participants prev;
         isConnected := b; isLoading := isLoading prev;
         error := error prev; lastMessageId := lastMessageId prev |}) h
  else h.

(** [setTimeout(cb, ms)]: a new pending timer; its handle is returned. *)
Definition setTimeout (cb : Callback) (ms : Z) (h : Hook) : nat * Hook :=
  (nextHandle h,
   {| state := state h; isMountedRef := isMountedRef h;
      channelRef := channelRef h;
      reconnectTimeoutRef := reconnectTimeoutRef h;
      timers := timers h ++ [{| handle := nextHandle h; callback := cb;
                                delay := ms |}];
      nextHandle := S (nextHandle h) |}).

Definition set_reconnectTimeoutRef (r : option nat) (h : Hook) : Hook :=
  {| state := state h; isMountedRef := isMountedRef h;
     channelRef := channelRef h; reconnectTimeoutRef := r;
     timers := timers h; nextHandle := nextHandle h |}.

Section WithDate.

(** [new Date(s).getTime()] belongs to the runtime: the time value in
    milliseconds, NaN for a string that is not a date. *)
Variable Date_getTime : string → number.

Definition byCreatedAt (a b : ChatMessage.t) : number :=
  sub (Date_getTime (ChatMessage.createdAt a))
      (Date_getTime (ChatMessage.createdAt b)).

(** *** fetchMessages (for a room id that is not empty) *)

(** Up to the [await]. *)
Definition fetchMessages_begin (h : Hook) : Hook :=
  setError None (setLoading true h).

(** From the [await] on; [now] is the clock read by [createError]. *)
Definition fetchMessages_resume
    (r : settled (list ChatMessage.t)) (now : Z) (h : Hook) : Hook :=
  let h1 :=
    match r with
    | resolved msgs =>
        if isMountedRef h then
          setState (λ prev,
            let sorted := Array_sort byCreatedAt msgs in
            {| messages := sorted;
               participants := participants prev;
               isConnected := isConnected prev;
               isLoading := isLoading prev;
               error := error prev;
               lastMessageId := ChatMessage.id <$> last sorted |}) h
        else h
    | rejected msg =>
        setError (Some (createError now "FETCH_MESSAGES_FAILED" msg)) h
    end in
  setLoading false h1.

(** *** fetchParticipants *)

Definition fetchParticipants_begin (h : Hook) : Hook := setError None h.

Definition fetchParticipants_resume
    (r : settled (list ChatParticipant.t)) (now : Z) (h : Hook) : Hook :=
  match r with
  | resolved ps =>
      if isMountedRef h then
        setState (λ prev,
          {| messages := messages prev; participants := ps;
             isConnected := isConnected prev;
             isLoading := isLoading prev; error := error prev;
             lastMessageId := lastMessageId prev |}) h
      else h
  | rejected msg =>
      setError (Some (createError now "FETCH_PARTICIPANTS_FAILED" msg)) h
  end.

End WithDate.

(** *** The change-feed handlers of setupRealtimeConnection *)

Definition on_message_INSERT (payload_new : option MessageRow) (h : Hook)
  : Hook :=
  match payload_new with
  | Some newMessage =>
      if isMountedRef h then
        setState (λ prev,
          {| messages := messages prev ++
               [ChatMessage.mk (m_id newMessage) (m_room_id newMessage)
                  (m_username newMessage) (m_message newMessage)
                  (m_message_type newMessage) (m_created_at newMessage)
                  (m_user_id newMessage)];
             participants := participants prev;
             isConnected := isConnected prev;
             isLoading := isLoading prev;
             error := error prev;
             lastMessageId := Some (m_id newMessage) |}) h
      else h
  | None => h
  end.

Definition on_participant_INSERT (payload_new : option ParticipantRow)
    (h : Hook) : Hook :=
  match payload_new with
  | Some newParticipant =>
      if isMountedRef h then
        setState (λ prev,
          {| messages := messages prev;
             participants := participants prev ++
               [ChatParticipant.mk (p_id newParticipant)
                  (p_room_id newParticipant) (p_username newParticipant)
                  (p_joined_at newParticipant) (p_last_seen newParticipant)
                  (p_is_online newParticipant) (p_user_id newParticipant)];
             isConnected := isConnected prev;
             isLoading := isLoading prev;
             error := error prev;
             lastMessageId := lastMessageId prev |}) h
      else h
  | None => h
  end.

Definition on_participant_UPDATE (payload_new : option ParticipantRow)
    (h : Hook) : Hook :=
  match payload_new with
  | Some updatedParticipant =>
      if isMountedRef h then
        setState (λ prev,
          {| messages := messages prev;
             participants :=
               (λ p,
                  if bool_decide
                       (ChatParticipant.id p = p_id updatedParticipant)
                  then
                    ChatParticipant.mk
                      (ChatParticipant.id p) (ChatParticipant.roomId p)
                      (ChatParticipant.username p)
                      (ChatParticipant.joinedAt p)
                      (p_last_seen updatedParticipant)
                      (p_is_online updatedParticipant)
                      (ChatParticipant.userId p)
                  else p) <$> participants prev;
             isConnected := isConnected prev;
             isLoading := isLoading prev;
             error := error prev;
             lastMessageId := lastMessageId prev |}) h
      else h
  | None => h
  end.

(** The [subscribe] status callback. *)
Definition on_status (status : string) (h : Hook) : Hook :=
  let h1 := setConnected (bool_decide (status = "SUBSCRIBED")) h in
  if bool_decide (status = "CHANNEL_ERROR")
     || bool_decide (status = "TIMED_OUT")
  then
    let '(t, h2) := setTimeout cb_reconnect RECONNECT_DELAY h1 in
    set_reconnectTimeoutRef (Some t) h2
  else h1.

(** *** The incoming events and the order kept in the state *)

Inductive Event :=
| fetched_messages (r : settled (list ChatMessage.t)) (now : Z)
| fetched_participants (r : settled (list ChatParticipant.t)) (now : Z)
| message_INSERT (payload_new : option MessageRow)
| participant_INSERT (payload_new : option ParticipantRow)
| participant_UPDATE (payload_new : option ParticipantRow).

(** One completed fetch or one change event, merged into the hook. *)
Definition merge (Date_getTime : string → number) (ev : Event) (h : Hook)
  : Hook :=
  match ev with
  | fetched_messages r now => fetchMessages_resume Date_getTime r now h
  | fetched_participants r now => fetchParticipants_resume r now h
  | message_INSERT row => on_message_INSERT row h
  | participant_INSERT row => on_participant_INSERT row h
  | participant_UPDATE row => on_participant_UPDATE row h
  end.

(** [a] is not later than [b], both timestamps being dates. *)
Definition created_le (Date_getTime : string → number)
    (a b : ChatMessage.t) : Prop :=
  match Date_getTime (ChatMessage.createdAt a),
        Date_getTime (ChatMessage.createdAt b) with
  | Num x, Num y => x <= y
  | _, _ => False
  end.

Definition valid_date (Date_getTime : string → number)
    (m : ChatMessage.t) : Prop :=
  Date_getTime (ChatMessage.createdAt m) ≠ NaN.

Definition ascending (Date_getTime : string → number)
    (ms : list ChatMessage.t) : Prop :=
  StronglySorted (created_le Date_getTime) ms.

(** Each message id at most once, ascending by createdAt, each participant
    id at most once. *)
Definition deduplicated_and_ordered (Date_getTime : string → number)
    (s : ChatState) : Prop :=
  NoDup (ChatMessage.id <$> messages s)
  ∧ ascending Date_getTime (messages s)
  ∧ NoDup (ChatParticipant.id <$> participants s).

Definition row_message (r : MessageRow) : ChatMessage.t :=
  ChatMessage.mk (m_id r) (m_room_id r) (m_username r) (m_message r)
                 (m_message_type r) (m_created_at r) (m_user_id r).

(** What the server has to deliver for the merge to keep ids unique and
    messages in order: fetched lists with distinct ids and real dates, and
    inserted rows that are new and not earlier than what is listed. *)
Definition well_behaved (Date_getTime : string → number) (ev : Event)
    (s : ChatState) : Prop :=
  match ev with
  | fetched_messages (resolved ms) _ =>
      NoDup (ChatMessage.id <$> ms) ∧ Forall (valid_date Date_getTime) ms
  | fetched_participants (resolved ps) _ =>
      NoDup (ChatParticipant.id <$> ps)
  | message_INSERT (Some row) =>
      (m_id row ∉ (ChatMessage.id <$> messages s))
      ∧ valid_date Date_getTime (row_message row)
      ∧ Forall (λ m, created_le Date_getTime m (row_message row))
               (messages s)
  | participant_INSERT (Some row) =>
      p_id row ∉ (ChatParticipant.id <$> participants s)
  | _ => True
  end.

(** *** ChatAPIClient.makeRequest *)

(** What one [fetch] of the client meets: the call is rejected (network),
    or a response arrives whose body parses to JSON or does not. *)
Inductive Body (T : Type) :=
| bad_json (msg : string)
| json (success : bool) (err : option string) (data : T).
Arguments bad_json {T} msg.
Arguments json {T} success err data.

Inductive FetchResult (T : Type) :=
| network_error (msg : string)
| response (ok : bool) (status : Z) (statusText : string) (body : Body T).
Arguments network_error {T} msg.
Arguments response {T} ok status statusText body.

(** The [try] block of makeRequest. *)
Definition attempt {T} (r : FetchResult T) : settled T :=
  match r with
  | network_error msg => rejected msg
  | response ok status statusText body =>
      if negb ok
      then rejected ("HTTP " +:+ pretty status +:+ ": " +:+ statusText)
      else
        match body with
        | bad_json msg => rejected msg
        | json success err data =>
            if negb success
            then rejected (or_else err "API request failed")
            else resolved data
        end
  end.

(** What makeRequest does to the outside, in order. *)
Inductive IO := io_fetch (url : string) | io_sleep (ms : Z).

Definition after {T} (pre : list IO) (r : settled T * list IO)
  : settled T * list IO :=
  (r.1, pre ++ r.2).

(** [net n] is what the fetch of the invocation with [retryCount = n]
    meets. The recursion is the source's: one more call while
    [retryCount < RETRY_ATTEMPTS]. *)
Equations? makeRequest {T} (net : nat → FetchResult T) (url : string)
    (retryCount : nat) : settled T * list IO
    by wf (RETRY_ATTEMPTS - retryCount)%nat lt :=
makeRequest net url retryCount with attempt (net retryCount) => {
  | resolved data := (resolved data, [io_fetch url]);
  | rejected e with decide (retryCount < RETRY_ATTEMPTS)%nat => {
    | left _ :=
        after [io_fetch url;
               io_sleep (RETRY_DELAY * (Z.of_nat retryCount + 1))]
              (makeRequest net url (retryCount + 1));
    | right _ := (rejected e, [io_fetch url]) } }.
Proof. lia. Qed.

Definition fetchMessages_url (roomId : string) (limit : Z) : string :=
  "/api/chat/messages?roomId=" +:+ roomId +:+ "&limit=" +:+ pretty limit.

(** ChatAPIClient.fetchMessages: [retryCount] takes its default, 0. *)
Definition ChatAPIClient_fetchMessages {T} (net : nat → FetchResult T)
    (roomId : string) (limit : Z) : settled T * list IO :=
  makeRequest net (fetchMessages_url roomId limit) 0.

Definition ChatAPIClient_fetchParticipants {T} (net : nat → FetchResult T)
    (roomId : string) : settled T * list IO :=
  makeRequest net ("/api/chat/participants?roomId=" +:+ roomId) 0.

(** The calls and pauses of a request whose first [n] attempts fail. *)
Fixpoint backoff (url : string) (k n : nat) : list IO :=
  match n with
  | O => [io_fetch url]
  | S n' =>
      io_fetch url :: io_sleep (RETRY_DELAY * (Z.of_nat k + 1))
        :: backoff url (S k) n'
  end.

Definition fetches (tr : list IO) : list string :=
  omap (λ e, match e with io_fetch u => Some u | _ => None end) tr.

Definition sleeps (tr : list IO) : list Z :=
  omap (λ e, match e with io_sleep ms => Some ms | _ => None end) tr.

End Chat.


(* ===================================================================== *)
(** ** The upload route (app/api/files/upload/route.ts) *)
(* ===================================================================== *)

Module Upload.
Import JS.

Record File := {
  name : string;
  type : string;
  content : list Byte.byte
}.

(** [file.size] is the length of the content in bytes. *)
Definition size (f : File) : Z := Z.of_nat (length (content f)).

Record Form := {
  form_file : option File;
  form_password : option string;
  form_expiresIn : option string;
  form_maxDownloads : option string;
  form_captchaToken : option string
}.

Record ProcessEnv := {
  NEXT_PUBLIC_SUPABASE_URL : option string;
  NEXT_PUBLIC_APPWRITE_ENDPOINT : option string;
  NEXT_PUBLIC_APPWRITE_PROJECT_ID : option string;
  APPWRITE_API_KEY : option string;
  NEXT_PUBLIC_BASE_URL : option string;
  MAX_FILE_SIZE : option string
}.

Record Request := {
  user_agent : option string;
  nextUrl_origin : string
}.

Record ScanResult := {
  isClean : bool;
  signature : option string;
  scan_message : option string
}.

(** The answer of the storage service to the upload request. *)
Record StorageResponse := {
  res_ok : bool;
  res_text : settled string;
  res_json : settled unit
}.

(** What the services outside the route answer during one request. *)
Record Services := {
  rateLimiter_isAllowed : settled bool;
  request_formData : settled Form;
  file_arrayBuffer : File → settled (list Byte.byte);
  virusScanner_scanBuffer : list Byte.byte → settled ScanResult;
  storage_fetch : settled StorageResponse;
  files_insert_error : option string;
  audit_insert_error : option string;
  redis_set : settled unit;
  Date_now : Z;       (* the clock read by [Date.now()] *)
  new_Date : Z        (* the clock read by [new Date()] for uploaded_at *)
}.

(** The helpers the route imports from [@/lib/security], [@/lib/redis] and
    [@/lib/appwrite]; their sources are not part of the route. The two
    generators are given by the sequence of values they hand out. *)
Class Lib := {
  getAllowedTypes : list string;
  validateFileType : string → string → list string → bool;
  validateFileSize : Z → number → bool;
  getClientIP : Request → string;
  generateId : nat → string;
  generateSecureId : nat → string;
  REDIS_KEYS_FILE_UPLOAD : string → string;
  BUCKETS_FILES : string
}.

(** *** The stores *)

Record StoredObject := {
  bucketId : string;
  object_fileId : string;
  object_filename : string;
  object_contentType : string;
  object_data : list Byte.byte
}.

Record FileRow := {
  original_name : string;
  row_size : Z;
  mime_type : string;
  download_token : string;
  edit_token : string;
  password : option string;
  expiry_date : option ISOString;
  max_downloads : option Z;
  download_count : Z;
  is_active : bool;
  uploaded_at : ISOString;
  uploaded_by : string;
  last_downloaded_at : option ISOString
}.

Inductive AuditMetadata :=
| virus_metadata (filename : string) (signature message : option string)
| upload_metadata (filename : string) (size : Z) (mimeType : string).

Record AuditRow := {
  action : string;
  resource_type : string;
  resource_id : string;
  ip_address : string;
  audit_user_agent : option string;
  metadata : AuditMetadata
}.

(** The cached value: the JSON text of the object [{ fileId, editToken }],
    kept as the object. *)
Record CacheEntry := {
  cached_fileId : string;
  cached_editToken : string;
  ttl_seconds : Z
}.

(** The steps of the handler that reach outside it or decide its path. *)
Inductive Step :=
| step_rateLimit
| step_formData
| step_validateFileType
| step_validateFileSize
| step_scanBuffer
| step_audit_insert (action : string)
| step_storage_upload
| step_files_insert
| step_setWithExpiry.

Record World := {
  bucket : list StoredObject;          (* object storage *)
  files : list FileRow;                (* relational table 'files' *)
  audit_logs : list AuditRow;          (* relational table 'audit_logs' *)
  redis : gmap string CacheEntry;      (* the cache *)
  ids_drawn : nat;                     (* calls of generateId so far *)
  secure_ids_drawn : nat;              (* calls of generateSecureId so far *)
  steps : list Step                    (* steps taken, oldest first *)
}.

(** *** Computations of the handler: state over [World], may throw *)

Definition M (A : Type) : Type := World → settled A * World.

#[global] Instance M_ret : MRet M := λ A a w, (resolved a, w).

#[global] Instance M_bind : MBind M := λ A B f m w,
  match m w with
  | (resolved a, w') => f a w'
  | (rejected e, w') => (rejected e, w')
  end.

Definition throw {A} (e : string) : M A := λ w, (rejected e, w).

Definition await {A} (r : settled A) : M A := λ w, (r, w).

Definition try_catch {A} (m : M A) (handler : string → M A) : M A := λ w,
  match m w with
  | (resolved a, w') => (resolved a, w')
  | (rejected e, w') => handler e w'
  end.

Definition modify (f : World → World) : M unit := λ w, (resolved (), f w).

Definition gets {A} (f : World → A) : M A := λ w, (resolved (f w), w).

Definition took (s : Step) : M unit :=
  modify (λ w,
    {| bucket := bucket w; files := files w; audit_logs := audit_logs w;
       redis := redis w; ids_drawn := ids_drawn w;
       secure_ids_drawn := secure_ids_drawn w;
       steps := steps w ++ [s] |}).

(** *** Responses *)

Inductive ResponseBody :=
| body_error (error : string) (details : option string)
| body_success (fileId downloadUrl editUrl : string)
               (file_name : string) (file_size : Z) (file_type : string).

Record Response := { body : ResponseBody; status : Z }.

(** [NextResponse.json(body, { status })]; the status defaults to 200. *)
Definition NextResponse_json (b : ResponseBody) (st : option Z) : Response :=
  {| body := b; status := default 200 st |}.

Definition error_response (msg : string) (st : Z) : Response :=
  NextResponse_json (body_error msg None) (Some st).

(** *** The calls of the handler *)

Section Handler.
Context `{Lib}.
Variable env : ProcessEnv.
Variable svc : Services.
Variable request : Request.

Definition fileUploadRateLimiter_isAllowed : M bool :=
  took step_rateLimit;; await (rateLimiter_isAllowed svc).

Definition formData : M Form :=
  took step_formData;; await (request_formData svc).

Definition call_validateFileType (f : File) (allowed : list string)
  : M bool :=
  took step_validateFileType;;
  mret (validateFileType (name f) (type f) allowed).

Definition call_validateFileSize (f : File) (maxSize : number) : M bool :=
  took step_validateFileSize;;
  mret (validateFileSize (size f) maxSize).

Definition call_generateId : M string :=
  n ← gets ids_drawn;
  modify (λ w,
    {| bucket := bucket w; files := files w; audit_logs := audit_logs w;
       redis := redis w; ids_drawn := S (ids_drawn w);
       secure_ids_drawn := secure_ids_drawn w; steps := steps w |});;
  mret (generateId n).

Definition call_generateSecureId : M string :=
  n ← gets secure_ids_drawn;
  modify (λ w,
    {| bucket := bucket w; files := files w; audit_logs := audit_logs w;
       redis := redis w; ids_drawn := ids_drawn w;
       secure_ids_drawn := S (secure_ids_drawn w); steps := steps w |});;
  mret (generateSecureId n).

Definition scanBuffer (buffer : list Byte.byte) : M ScanResult :=
  took step_scanBuffer;; await (virusScanner_scanBuffer svc buffer).

(** [supabaseAdmin.from('audit_logs').insert(row)]: the row is added unless
    the database reports an error; the call itself never throws, and the
    route does not look at its result. *)
Definition audit_logs_insert (row : AuditRow) : M unit :=
  took (step_audit_insert (action row));;
  match audit_insert_error svc with
  | Some _ => mret ()
  | None =>
      modify (λ w,
        {| bucket := bucket w; files := files w;
           audit_logs := audit_logs w ++ [row];
           redis := redis w; ids_drawn := ids_drawn w;
           secure_ids_drawn := secure_ids_drawn w; steps := steps w |})
  end.

(** The POST to the storage bucket: the object is stored when the service
    answers ok. *)
Definition storage_upload (fileId : string) (f : File) (buffer : list Byte.byte)
  : M StorageResponse :=
  took step_storage_upload;;
  res ← await (storage_fetch svc);
  (if res_ok res then
     modify (λ w,
       {| bucket := bucket w ++
            [{| bucketId := BUCKETS_FILES; object_fileId := fileId;
                object_filename := name f; object_contentType := type f;
                object_data := buffer |}];
          files := files w; audit_logs := audit_logs w; redis := redis w;
          ids_drawn := ids_drawn w;
          secure_ids_drawn := secure_ids_drawn w; steps := steps w |})
   else mret ());;
  mret res.

(** [supabaseAdmin.from('files').insert([row])]: returns the error, if
    any; the row is added when there is none. *)
Definition files_insert (row : FileRow) : M (option string) :=
  took step_files_insert;;
  match files_insert_error svc with
  | Some e => mret (Some e)
  | None =>
      modify (λ w,
        {| bucket := bucket w; files := files w ++ [row];
           audit_logs := audit_logs w; redis := redis w;
           ids_drawn := ids_drawn w;
           secure_ids_drawn := secure_ids_drawn w; steps := steps w |});;
      mret None
  end.

(** Modelled from the spec: [setWithExpiry] of [@/lib/redis], whose source
    is not part of the route: it "caches token-to-file mapping with a
    time-to-live", here the entry under the key with the given seconds. *)
Definition setWithExpiry (key : string) (fileId editToken : string)
    (seconds : Z) : M unit :=
  took step_setWithExpiry;;
  await (redis_set svc);;
  modify (λ w,
    {| bucket := bucket w; files := files w; audit_logs := audit_logs w;
       redis := <[key := {| cached_fileId := fileId;
                            cached_editToken := editToken;
                            ttl_seconds := seconds |}]> (redis w);
       ids_drawn := ids_drawn w;
       secure_ids_drawn := secure_ids_drawn w; steps := steps w |}).

(** The JSON sent to the database has null where the number is NaN. *)
Definition json_number (v : number) : option Z :=
  match v with Num z => Some z | NaN => None end.

(** *** POST *)

(** "Calculate expiry": the date, or the RangeError of [toISOString]. *)
Definition expiry (expiresIn : option string) : settled (option ISOString) :=
  if truthy expiresIn && negb (bool_decide (expiresIn = Some "never"))
  then
    let hours := parseInt (default "" expiresIn) in
    match Date_toISOString
            (add (Num (Date_now svc))
                 (mul (mul (mul hours (Num 60)) (Num 60)) (Num 1000))) with
    | resolved iso => resolved (Some iso)
    | rejected e => rejected e
    end
  else resolved None.

(** The body of the [try] block. *)
Definition POST_try : M Response :=
  allowed ← fileUploadRateLimiter_isAllowed;
  if negb allowed
  then mret (error_response
               "Too many upload attempts. Please try again later." 429)
  else
  form ← formData;
  match form_file form with
  | None => mret (error_response "No file provided" 400)
  | Some file =>
  let allowedTypes := getAllowedTypes in
  let maxSize := parseInt (or_else (MAX_FILE_SIZE env) "104857600") in
  typeOk ← call_validateFileType file allowedTypes;
  if negb typeOk
  then mret (error_response "File type not allowed" 400)
  else
  sizeOk ← call_validateFileSize file maxSize;
  if negb sizeOk
  then mret (error_response "File size exceeds limit" 400)
  else
  fileId ← call_generateId;
  downloadToken ← call_generateSecureId;
  editToken ← call_generateSecureId;
  fileBuffer ← await (file_arrayBuffer svc file);
  scanResult ← scanBuffer fileBuffer;
  if negb (isClean scanResult)
  then
    audit_logs_insert
      {| action := "virus_detected"; resource_type := "file";
         resource_id := fileId; ip_address := getClientIP request;
         audit_user_agent := user_agent request;
         metadata := virus_metadata (name file) (signature scanResult)
                                    (scan_message scanResult) |};;
    mret (error_response
            "File contains malicious content and cannot be uploaded" 400)
  else
  res ← storage_upload fileId file fileBuffer;
  if negb (res_ok res)
  then
    errText ← await (res_text res);
    mret (NextResponse_json
            (body_error "Appwrite upload failed" (Some errText)) (Some 500))
  else
  await (res_json res);;
  expiryDate ← await (expiry (form_expiresIn form));
  uploadedAt ← await (Date_toISOString (Num (new_Date svc)));
  fileInsertError ← files_insert
    {| original_name := name file;
       row_size := size file;
       mime_type := type file;
       download_token := downloadToken;
       edit_token := editToken;
       password := if truthy (form_password form)
                   then form_password form else None;
       expiry_date := expiryDate;
       max_downloads :=
         if truthy (form_maxDownloads form)
         then json_number (parseInt (default "" (form_maxDownloads form)))
         else None;
       download_count := 0;
       is_active := true;
       uploaded_at := uploadedAt;
       uploaded_by := getClientIP request;
       last_downloaded_at := None |};
  match fileInsertError with
  | Some msg =>
      mret (NextResponse_json
              (body_error "Failed to save file metadata in Supabase"
                          (Some msg)) (Some 500))
  | None =>
  audit_logs_insert
    {| action := "file_upload"; resource_type := "file";
       resource_id := fileId; ip_address := getClientIP request;
       audit_user_agent := user_agent request;
       metadata := upload_metadata (name file) (size file) (type file) |};;
  setWithExpiry (REDIS_KEYS_FILE_UPLOAD downloadToken) fileId editToken
                (24 * 60 * 60);;
  let baseUrl := or_else (NEXT_PUBLIC_BASE_URL env) (nextUrl_origin request) in
  let downloadUrl := baseUrl +:+ "/files/" +:+ downloadToken in
  let editUrl := baseUrl +:+ "/files/manage/" +:+ editToken in
  mret (NextResponse_json
          (body_success fileId downloadUrl editUrl
                        (name file) (size file) (type file)) None)
  end
  end.

Definition configured : bool :=
  truthy (NEXT_PUBLIC_SUPABASE_URL env)
  && negb (bool_decide (NEXT_PUBLIC_SUPABASE_URL env
                        = Some "https://placeholder.supabase.co"))
  && truthy (NEXT_PUBLIC_APPWRITE_ENDPOINT env)
  && negb (bool_decide (NEXT_PUBLIC_APPWRITE_ENDPOINT env
                        = Some "https://placeholder.appwrite.io/v1")).

Definition POST : M Response :=
  if negb configured
  then mret (error_response "Service not properly configured" 503)
  else
    try_catch POST_try
      (λ _, mret (error_response "Upload failed. Please try again." 500)).

End Handler.

(** The steps of a request that stores its file, in the order the route
    takes them. *)
Definition pipeline : list Step :=
  [step_rateLimit; step_formData; step_validateFileType;
   step_validateFileSize; step_scanBuffer; step_storage_upload;
   step_files_insert; step_audit_insert "file_upload"; step_setWithExpiry].

(** The steps of a request that stops at an infected file. *)
Definition infected_path : list Step :=
  [step_rateLimit; step_formData; step_validateFileType;
   step_validateFileSize; step_scanBuffer;
   step_audit_insert "virus_detected"].

(** The request gets as far as validating [file]. *)
Definition arrives (env : ProcessEnv) (svc : Services) (form : Form)
    (file : File) : Prop :=
  configured env = true
  ∧ rateLimiter_isAllowed svc = resolved true
  ∧ request_formData svc = resolved form
  ∧ form_file form = Some file.

(** The file passes validation and its buffer reaches the scanner. *)
Definition validated `{Lib} (env : ProcessEnv) (svc : Services)
    (file : File) (buffer : list Byte.byte) : Prop :=
  validateFileType (name file) (type file) getAllowedTypes = true
  ∧ validateFileSize (size file)
      (parseInt (or_else (MAX_FILE_SIZE env) "104857600")) = true
  ∧ file_arrayBuffer svc file = resolved buffer.

(** The steps this request took, given the world before and after. *)
Definition taken (w w' : World) : list Step :=
  drop (length (steps w)) (steps w').


Definition stores_unchanged (w w' : World) : Prop :=
  bucket w' = bucket w ∧ files w' = files w
  ∧ audit_logs w' = audit_logs w ∧ redis w' = redis w.





End Upload.



(* ===================================================================== *)
(** ** The management page (app/files/manage/[id]/page.tsx) *)
(* ===================================================================== *)

Module Manage.

(** The [useState] cells of ManageFilePage that the handlers below touch. *)
Record Page := {
  editToken : string;
  isAuthenticated : bool;
  error : string;
  filesToDelete : list string
}.

Definition initialPage : Page :=
  {| editToken := ""; isAuthenticated := false; error := "";
     filesToDelete := [] |}.

Definition setEditToken (v : string) (p : Page) : Page :=
  {| editToken := v; isAuthenticated := isAuthenticated p;
     error := error p; filesToDelete := filesToDelete p |}.

Definition setIsAuthenticated (b : bool) (p : Page) : Page :=
  {| editToken := editToken p; isAuthenticated := b;
     error := error p; filesToDelete := filesToDelete p |}.

Definition setError (e : string) (p : Page) : Page :=
  {| editToken := editToken p; isAuthenticated := isAuthenticated p;
     error := e; filesToDelete := filesToDelete p |}.

Definition setFilesToDelete (f : list string → list string) (p : Page)
  : Page :=
  {| editToken := editToken p; isAuthenticated := isAuthenticated p;
     error := error p; filesToDelete := f (filesToDelete p) |}.

(** [editToken && editToken.length >= 10] *)
Definition handleAuthenticate (p : Page) : Page :=
  if negb (String.eqb (editToken p) "")
     && (10 <=? Z.of_nat (String.length (editToken p)))
  then setError "" (setIsAuthenticated true p)
  else setError "Invalid edit token." p.

(** The page shows the management UI once [isAuthenticated] holds. *)
Definition showsManagement (p : Page) : bool := isAuthenticated p.

Definition handleDeleteExistingFile (fileToken : string) (p : Page) : Page :=
  setFilesToDelete (λ prev, prev ++ [fileToken]) p.

Definition handleUndoDeleteExistingFile (fileToken : string) (p : Page)
  : Page :=
  setFilesToDelete
    (λ prev, filter (λ token, token ≠ fileToken) prev) p.

(** *** formatFileSize *)

Definition sizes : list string := ["Bytes"; "KB"; "MB"; "GB"].

(** [Math.floor(Math.log(bytes) / Math.log(k))] for [k] a power of two and
    [bytes > 0]: the integer part of the logarithm in base [k]. The quotient
    of the two doubles is read as the exact quotient. *)
Definition floor_log (k bytes : Z) : Z := Z.log2 bytes / Z.log2 k.

(** [x.toFixed(2)] as a count of hundredths, for [x = num / den >= 0]:
    the nearest, the larger one on a tie. The quotient [bytes / k^i] is an
    exact double for the sizes a double holds exactly, [k] being a power of
    two. *)
Definition toFixed2 (num den : Z) : Z := (200 * num + den) / (2 * den).

(** [parseFloat("i.ff") + ''] for a count of hundredths [h >= 0]: the
    shortest decimal text, without trailing zeros. *)
Definition hundredths_toString (h : Z) : string :=
  let i := h / 100 in
  let f := h mod 100 in
  if f =? 0 then pretty i
  else if f mod 10 =? 0 then pretty i +:+ "." +:+ pretty (f / 10)
  else pretty i +:+ "." +:+ pretty (f / 10) +:+ pretty (f mod 10).

(** [sizes[i]] in a string concatenation: a missing element reads
    "undefined". *)
Definition unit_at (i : Z) : string :=
  default "undefined" (sizes !! Z.to_nat i).

Definition formatFileSize (bytes : Z) : string :=
  if bytes =? 0 then "0 Bytes"
  else if bytes <? 0 then "NaN undefined"
  else
    let k := 1024 in
    let i := floor_log k bytes in
    hundredths_toString (toFixed2 bytes (k ^ i)) +:+ " " +:+ unit_at i.

End Manage.

(* ===================================================================== *)
(** ** Concrete rooms, requests and pages *)
(* ===================================================================== *)

Module Scenario.
Import JS.

(** The time values of three ISO timestamps of 1 January 2024 (UTC). *)
Definition utc (s : string) : number :=
  if String.eqb s "2024-01-01T00:00:01.000Z" then Num 1704067201000
  else if String.eqb s "2024-01-01T00:00:02.000Z" then Num 1704067202000
  else if String.eqb s "2024-01-01T00:00:03.000Z" then Num 1704067203000
  else NaN.

Definition msg (i t : string) : Chat.ChatMessage.t :=
  Chat.ChatMessage.mk i "room" "ann" "hello" Chat.text t None.

Definition msg_row (i t : string) : Chat.MessageRow :=
  {| Chat.m_id := i; Chat.m_room_id := "room"; Chat.m_username := "ann";
     Chat.m_message := "hello"; Chat.m_message_type := Chat.text;
     Chat.m_created_at := t; Chat.m_user_id := None |}.

Definition member (i : string) (online : bool) : Chat.ChatParticipant.t :=
  Chat.ChatParticipant.mk i "room" "ann" "2024-01-01T00:00:01.000Z"
                          "2024-01-01T00:00:01.000Z" online None.

Definition member_row (i seen : string) (online : bool)
  : Chat.ParticipantRow :=
  {| Chat.p_id := i; Chat.p_room_id := "room"; Chat.p_username := "ann";
     Chat.p_joined_at := "2024-01-01T00:00:01.000Z";
     Chat.p_last_seen := seen; Chat.p_is_online := online;
     Chat.p_user_id := None |}.

(** A mounted hook that lists the given messages and participants. *)
Definition hook (ms : list Chat.ChatMessage.t)
    (ps : list Chat.ChatParticipant.t) : Chat.Hook :=
  {| Chat.state :=
       {| Chat.messages := ms; Chat.participants := ps;
          Chat.isConnected := true; Chat.isLoading := false;
          Chat.error := None;
          Chat.lastMessageId := Chat.ChatMessage.id <$> last ms |};
     Chat.isMountedRef := true; Chat.channelRef := true;
     Chat.reconnectTimeoutRef := None; Chat.timers := [];
     Chat.nextHandle := 0 |}.

(** *** An upload *)

Definition lib : Upload.Lib :=
  {| Upload.getAllowedTypes := ["txt"; "pdf"];
     Upload.validateFileType := λ name type allowed,
       bool_decide (type = "text/plain");
     Upload.validateFileSize := λ size maxSize,
       match maxSize with Num m => size <=? m | NaN => false end;
     Upload.getClientIP := λ _, "203.0.113.7";
     Upload.generateId := λ n, "file-" +:+ pretty n;
     Upload.generateSecureId := λ n, "tok-" +:+ pretty n;
     Upload.REDIS_KEYS_FILE_UPLOAD := λ t, "file_upload:" +:+ t;
     Upload.BUCKETS_FILES := "files" |}.


Definition env : Upload.ProcessEnv :=
  {| Upload.NEXT_PUBLIC_SUPABASE_URL := Some "https://db.example.org";
     Upload.NEXT_PUBLIC_APPWRITE_ENDPOINT := Some "https://store.example.org/v1";
     Upload.NEXT_PUBLIC_APPWRITE_PROJECT_ID := Some "proj";
     Upload.APPWRITE_API_KEY := Some "key";
     Upload.NEXT_PUBLIC_BASE_URL := Some "https://share.example.org";
     Upload.MAX_FILE_SIZE := None |}.

Definition request : Upload.Request :=
  {| Upload.user_agent := Some "curl/8.0";
     Upload.nextUrl_origin := "http://localhost:3000" |}.

Definition notes : Upload.File :=
  {| Upload.name := "notes.txt"; Upload.type := "text/plain";
     Upload.content := [Byte.x68; Byte.x69] |}.

Definition script : Upload.File :=
  {| Upload.name := "run.sh"; Upload.type := "application/x-sh";
     Upload.content := [Byte.x23; Byte.x21] |}.

Definition form_of (f : Upload.File) (pw expires limit : option string)
  : Upload.Form :=
  {| Upload.form_file := Some f; Upload.form_password := pw;
     Upload.form_expiresIn := expires; Upload.form_maxDownloads := limit;
     Upload.form_captchaToken := None |}.

Definition clean : Upload.ScanResult :=
  {| Upload.isClean := true; Upload.signature := None;
     Upload.scan_message := None |}.

Definition infected : Upload.ScanResult :=
  {| Upload.isClean := false; Upload.signature := Some "EICAR-Test";
     Upload.scan_message := Some "threat found" |}.

Definition stored : Upload.StorageResponse :=
  {| Upload.res_ok := true; Upload.res_text := resolved "";
     Upload.res_json := resolved () |}.

Definition refused : Upload.StorageResponse :=
  {| Upload.res_ok := false; Upload.res_text := resolved "bucket full";
     Upload.res_json := rejected "no body" |}.

(** Services that answer a request carrying [form]: the scanner's verdict,
    the storage answer and the database error are given. *)
Definition services (form : Upload.Form) (verdict : Upload.ScanResult)
    (storage : Upload.StorageResponse) (db_error : option string)
  : Upload.Services :=
  {| Upload.rateLimiter_isAllowed := resolved true;
     Upload.request_formData := resolved form;
     Upload.file_arrayBuffer := λ f, resolved (Upload.content f);
     Upload.virusScanner_scanBuffer := λ _, resolved verdict;
     Upload.storage_fetch := resolved storage;
     Upload.files_insert_error := db_error;
     Upload.audit_insert_error := None;
     Upload.redis_set := resolved ();
     Upload.Date_now := 1704067200000;
     Upload.new_Date := 1704067200001 |}.

Definition empty_world : Upload.World :=
  {| Upload.bucket := []; Upload.files := []; Upload.audit_logs := [];
     Upload.redis := ∅; Upload.ids_drawn := 0;
     Upload.secure_ids_drawn := 0; Upload.steps := [] |}.

(** *** A management page *)

(** The edit token the upload handed out for the file. *)
Definition file_edit_token : string := "Zq8r1T5vXw2LmN7pKd4s".

Definition page_with (token : string) (marked : list string) : Manage.Page :=
  {| Manage.editToken := token; Manage.isAuthenticated := false;
     Manage.error := ""; Manage.filesToDelete := marked |}.

End Scenario.



(* ===================================================================== *)
(** ** The chat hook: mounting, reconnecting and the hook's actions *)
(* ===================================================================== *)

Module ChatSession.
Import JS Chat.

Definition set_isMountedRef (b : bool) (h : Hook) : Hook :=
  {| state := state h; isMountedRef := b; channelRef := channelRef h;
     reconnectTimeoutRef := reconnectTimeoutRef h;
     timers := timers h; nextHandle := nextHandle h |}.

Definition set_channelRef (b : bool) (h : Hook) : Hook :=
  {| state := state h; isMountedRef := isMountedRef h; channelRef := b;
     reconnectTimeoutRef := reconnectTimeoutRef h;
     timers := timers h; nextHandle := nextHandle h |}.

(** [clearTimeout(handle)]: the timer is no longer pending. *)
Definition clearTimeout (t : nat) (h : Hook) : Hook :=
  {| state := state h; isMountedRef := isMountedRef h;
     channelRef := channelRef h;
     reconnectTimeoutRef := reconnectTimeoutRef h;
     timers := filter (λ x, handle x ≠ t) (timers h);
     nextHandle := nextHandle h |}.

(** The hook together with the channels it has subscribed at the realtime
    service and not unsubscribed since. *)
Record Session := { hook : Hook; subscribed : nat }.

Definition on_hook (f : Hook → Hook) (s : Session) : Session :=
  {| hook := f (hook s); subscribed := subscribed s |}.

(** [if (channelRef.current) { channelRef.current.unsubscribe();
    channelRef.current = null; }] *)
Definition release_channel (s : Session) : Session :=
  if channelRef (hook s)
  then {| hook := set_channelRef false (hook s);
          subscribed := pred (subscribed s) |}
  else s.

(** [if (reconnectTimeoutRef.current) { clearTimeout(...); ... = null; }] *)
Definition clear_reconnect_timeout (h : Hook) : Hook :=
  match reconnectTimeoutRef h with
  | Some t => set_reconnectTimeoutRef None (clearTimeout t h)
  | None => h
  end.

(** setupRealtimeConnection: nothing for an empty room id or when a
    channel is held; otherwise the channel is built and subscribed, or the
    building throws ([throws]) and the error is recorded. *)
Definition setupRealtimeConnection (roomId : string) (throws : bool)
    (now : Z) (s : Session) : Session :=
  if String.eqb roomId "" || channelRef (hook s) then s
  else if throws
  then on_hook (setError (Some (createError now "REALTIME_SETUP_FAILED"
                                  "Failed to setup real-time connection")))
               s
  else {| hook := set_channelRef true (hook s);
          subscribed := S (subscribed s) |}.

(** The effect that initializes the connection, up to the first [await]s
    of the two fetches it starts. *)
Definition mount (roomId : string) (throws : bool) (now : Z) (s : Session)
  : Session :=
  if String.eqb roomId "" then s
  else
    setupRealtimeConnection roomId throws now
      (on_hook (λ h, fetchParticipants_begin
                       (fetchMessages_begin (set_isMountedRef true h))) s).

(** The cleanup function of that effect. The ref [visibilityTimeoutRef] is
    never assigned, so its branch does nothing. *)
Definition cleanup (s : Session) : Session :=
  on_hook (λ h, setConnected false (clear_reconnect_timeout h))
    (release_channel (on_hook (set_isMountedRef false) s)).

(** reconnect, up to the [await] of the two fetches. Neither fetch rejects
    (each catches its own errors), so the [catch] of reconnect is not
    reached from here on. *)
Definition reconnect_begin (roomId : string) (s : Session) : Session :=
  if String.eqb roomId "" then s
  else
    on_hook (λ h, fetchParticipants_begin
                    (fetchMessages_begin (clear_reconnect_timeout h)))
      (release_channel (on_hook (setConnected false) s)).

(** reconnect from start to end, the two fetches completing one after the
    other with nothing in between. *)
Definition reconnect (Date_getTime : string → number) (roomId : string)
    (msgs : settled (list ChatMessage.t))
    (parts : settled (list ChatParticipant.t))
    (throws : bool) (now : Z) (s : Session) : Session :=
  if String.eqb roomId "" then s
  else
    setupRealtimeConnection roomId throws now
      (on_hook (λ h, fetchParticipants_resume parts now
                       (fetchMessages_resume Date_getTime msgs now h))
         (reconnect_begin roomId s)).

(** fetchMessages from start to end on a room that has an id. *)
Definition fetchMessages (Date_getTime : string → number)
    (r : settled (list ChatMessage.t)) (now : Z) (h : Hook) : Hook :=
  fetchMessages_resume Date_getTime r now (fetchMessages_begin h).

Definition fetchParticipants (r : settled (list ChatParticipant.t))
    (now : Z) (h : Hook) : Hook :=
  fetchParticipants_resume r now (fetchParticipants_begin h).

(** *** The actions sendMessage, joinRoom and updateParticipantStatus *)

(** Each returns what the caller gets (the value, or the error rethrown)
    with the hook after it; [r] is how the request of the API client
    settled. *)
Definition sendMessage (roomId : string) (r : settled ChatMessage.t)
    (now : Z) (h : Hook) : settled ChatMessage.t * Hook :=
  if String.eqb roomId "" then (rejected "Room ID is required", h)
  else
    match r with
    | resolved newMessage => (resolved newMessage, setError None h)
    | rejected msg =>
        (rejected msg,
         setError (Some (createError now "SEND_MESSAGE_FAILED" msg))
                  (setError None h))
    end.

Definition joinRoom (roomId : string) (r : settled ChatParticipant.t)
    (now : Z) (h : Hook) : settled ChatParticipant.t * Hook :=
  if String.eqb roomId "" then (rejected "Room ID is required", h)
  else
    match r with
    | resolved participant => (resolved participant, setError None h)
    | rejected msg =>
        (rejected msg,
         setError (Some (createError now "JOIN_ROOM_FAILED" msg))
                  (setError None h))
    end.

Definition updateParticipantStatus (roomId : string)
    (r : settled ChatParticipant.t) (h : Hook)
  : settled ChatParticipant.t * Hook :=
  if String.eqb roomId "" then (rejected "Room ID is required", h)
  else (r, h).

Definition clearError (h : Hook) : Hook := setError None h.

(** What happens to a session: the effect and its cleanup, a reconnect, a
    status of the subscription, a fetch completing or a change event. *)
Inductive Op :=
| op_mount (roomId : string) (throws : bool) (now : Z)
| op_cleanup
| op_reconnect (roomId : string) (msgs : settled (list ChatMessage.t))
               (parts : settled (list ChatParticipant.t))
               (throws : bool) (now : Z)
| op_status (status : string)
| op_merge (ev : Event).

Definition run_op (Date_getTime : string → number) (o : Op) (s : Session)
  : Session :=
  match o with
  | op_mount roomId throws now => mount roomId throws now s
  | op_cleanup => cleanup s
  | op_reconnect roomId msgs parts throws now =>
      reconnect Date_getTime roomId msgs parts throws now s
  | op_status status => on_hook (on_status status) s
  | op_merge ev => on_hook (merge Date_getTime ev) s
  end.

(** One channel is subscribed when the hook holds one, none otherwise. *)
Definition one_channel (s : Session) : Prop :=
  subscribed s = if channelRef (hook s) then 1%nat else 0%nat.

(** The total of the pauses of a trace, in ms. *)
Definition paused (tr : list IO) : Z := foldr Z.add 0 (sleeps tr).

(** [lastMessageId] names the message listed last (none for no message). *)
Definition names_last (s : ChatState) : Prop :=
  lastMessageId s = ChatMessage.id <$> last (messages s).

(** The UPDATE handler on its own. *)
Definition update (u : ParticipantRow) (h : Hook) : Hook :=
  on_participant_UPDATE (Some u) h.

End ChatSession.

(* ===================================================================== *)
(** ** The upload route: what an answer says of the stores *)
(* ===================================================================== *)

Module UploadOutcome.
Import JS Upload.

Definition is_success (resp : Response) : bool :=
  match body resp with
  | body_success _ _ _ _ _ _ => true
  | body_error _ _ => false
  end.

(** The answers given before the file is looked into. *)
Definition turned_away (resp : Response) : Prop :=
  resp = error_response "Service not properly configured" 503
  ∨ resp = error_response
             "Too many upload attempts. Please try again later." 429
  ∨ resp = error_response "No file provided" 400
  ∨ resp = error_response "File type not allowed" 400
  ∨ resp = error_response "File size exceeds limit" 400.

(** [l'] is [l] with at most one element added at its end. *)
Definition grown {A} (l l' : list A) : Prop :=
  l' = l ∨ ∃ x, l' = l ++ [x].

End UploadOutcome.

(* ===================================================================== *)
(** ** The management page: the whole state, its requests and its views *)
(* ===================================================================== *)

Module ManagePage.
Import JS Manage.

Record Subfile := {
  file_name : string;
  file_path : string;
  sub_size : Z;
  mime_type : string;
  file_token : string;
  extracted : bool;
  downloaded_at : option string
}.

Record FileInfo := {
  id : string;
  name : string;
  size : Z;
  type : string;
  uploadDate : string;
  downloadCount : Z;
  maxDownloads : Z;
  expiryDate : string;
  isPasswordProtected : bool;
  virusScanStatus : string;
  files : option (list Subfile);
  appwrite_id : string;
  isActive : bool
}.

(** A file picked in the browser. *)
Record LocalFile := {
  local_name : string;
  local_size : Z;
  webkitRelativePath : string
}.

(** The state cells of ManageFilePage: those of [Manage.Page] and the
    rest. *)
Record State := {
  page : Page;
  fileInfo : option FileInfo;
  loading : bool;
  uploading : bool;
  updateLoading : bool;
  pendingFiles : list LocalFile
}.

Definition initialState : State :=
  {| page := initialPage; fileInfo := None; loading := true;
     uploading := false; updateLoading := false; pendingFiles := [] |}.

Definition on_page (f : Page → Page) (s : State) : State :=
  {| page := f (page s); fileInfo := fileInfo s; loading := loading s;
     uploading := uploading s; updateLoading := updateLoading s;
     pendingFiles := pendingFiles s |}.

Definition setFileInfo (i : option FileInfo) (s : State) : State :=
  {| page := page s; fileInfo := i; loading := loading s;
     uploading := uploading s; updateLoading := updateLoading s;
     pendingFiles := pendingFiles s |}.

Definition setLoading (b : bool) (s : State) : State :=
  {| page := page s; fileInfo := fileInfo s; loading := b;
     uploading := uploading s; updateLoading := updateLoading s;
     pendingFiles := pendingFiles s |}.

Definition setUpdateLoading (b : bool) (s : State) : State :=
  {| page := page s; fileInfo := fileInfo s; loading := loading s;
     uploading := uploading s; updateLoading := b;
     pendingFiles := pendingFiles s |}.

Definition setPendingFiles (f : list LocalFile → list LocalFile)
    (s : State) : State :=
  {| page := page s; fileInfo := fileInfo s; loading := loading s;
     uploading := uploading s; updateLoading := updateLoading s;
     pendingFiles := f (pendingFiles s) |}.

(** *** loadFileData *)

(** What the GET of the metadata meets: the fetch is rejected, or a
    response arrives whose body does not parse as JSON ([None]) or parses
    to a value of the state's type [FileInfo | null]. *)
Inductive MetadataResponse :=
| metadata_unreachable
| metadata_response (ok : bool) (body : option (option FileInfo)).

Definition loadFileData_begin (s : State) : State :=
  on_page (setError "") (setLoading true s).

Definition loadFileData_resume (r : MetadataResponse) (s : State) : State :=
  setLoading false
    match r with
    | metadata_response false _ =>
        setFileInfo None
          (on_page (setError "File not found or has been deleted.") s)
    | metadata_response true (Some data) => setFileInfo data s
    | metadata_response true None | metadata_unreachable =>
        setFileInfo None
          (on_page (setError "Failed to fetch file metadata.") s)
    end.

Definition loadFileData (r : MetadataResponse) (s : State) : State :=
  loadFileData_resume r (loadFileData_begin s).

(** handleAuthenticate followed by the effect that loads the file's data
    once [isAuthenticated] has become true. *)
Definition authenticate (s : State) : State :=
  let s' := on_page handleAuthenticate s in
  if isAuthenticated (page s') && negb (isAuthenticated (page s))
  then loadFileData_begin s'
  else s'.

(** *** The handlers of the file lists *)

(** [array.filter((x, i) => keep(x, i))], [i] being the index from which
    the list is numbered. *)
Fixpoint filter_index {A} (keep : A → nat → bool) (i : nat) (l : list A)
  : list A :=
  match l with
  | [] => []
  | x :: l' =>
      if keep x i then x :: filter_index keep (S i) l'
      else filter_index keep (S i) l'
  end.

(** handleDeleteFile *)
Definition handleDeleteFile (fileId : string) (s : State) : State :=
  match fileInfo s with
  | Some info =>
      match files info with
      | Some fs =>
          setFileInfo
            (Some {| id := id info; name := name info; size := size info;
                     type := type info; uploadDate := uploadDate info;
                     downloadCount := downloadCount info;
                     maxDownloads := maxDownloads info;
                     expiryDate := expiryDate info;
                     isPasswordProtected := isPasswordProtected info;
                     virusScanStatus := virusScanStatus info;
                     files := Some (filter (λ f, file_token f ≠ fileId) fs);
                     appwrite_id := appwrite_id info;
                     isActive := isActive info |}) s
      | None => s
      end
  | None => s
  end.

(** handleAddFiles, [picked] being the files of the input (none when the
    input has no file list). *)
Definition handleAddFiles (picked : option (list LocalFile)) (s : State)
  : State :=
  match picked with
  | Some filesArray => setPendingFiles (λ prev, prev ++ filesArray) s
  | None => s
  end.

Definition handleRemovePendingFile (idx : nat) (s : State) : State :=
  setPendingFiles
    (λ prev, filter_index (λ _ i, negb (i =? idx)%nat) 0 prev) s.

(** The button a row of the archive shows: Undo for a file marked for
    deletion, Delete otherwise. *)
Definition isMarkedForDelete (fileToken : string) (s : State) : bool :=
  bool_decide (fileToken ∈ filesToDelete (page s)).

Definition click_row_button (fileToken : string) (s : State) : State :=
  if isMarkedForDelete fileToken s
  then on_page (handleUndoDeleteExistingFile fileToken) s
  else on_page (handleDeleteExistingFile fileToken) s.

(** *** handleUpdateFiles *)

(** The form the page posts to [/api/files/manage/<fileId>]. *)
Record UpdateRequest := {
  url : string;
  form_files : list LocalFile;
  form_relativePaths : list string;
  form_editToken : string;
  form_filesToDelete : list string
}.

(** What that POST meets; [data] is the body parsed as JSON ([None] when
    it does not parse), of which only the field [error] is read. *)
Inductive UpdateResponse :=
| update_unreachable
| update_response (ok : bool) (data : option (option string)).

(** Up to the [await] of the POST: the request sent, if any. *)
Definition handleUpdateFiles_begin (fileId : string) (s : State)
  : option UpdateRequest * State :=
  if bool_decide (pendingFiles s = []) &&
     bool_decide (filesToDelete (page s) = [])
  then (None, s)
  else
    (Some {| url := "/api/files/manage/" +:+ fileId;
             form_files := pendingFiles s;
             form_relativePaths :=
               (λ f, if String.eqb (webkitRelativePath f) ""
                     then local_name f else webkitRelativePath f)
                 <$> pendingFiles s;
             form_editToken := editToken (page s);
             form_filesToDelete := filesToDelete (page s) |},
     on_page (setError "") (setUpdateLoading true s)).

(** From the answer of the POST on; [reload] is what the reload of the
    metadata meets when the update went through. *)
Definition handleUpdateFiles_resume (r : UpdateResponse)
    (reload : MetadataResponse) (s : State) : State :=
  setUpdateLoading false
    match r with
    | update_response true (Some _) =>
        on_page (setFilesToDelete (λ _, []))
          (setPendingFiles (λ _, []) (loadFileData reload s))
    | update_response false (Some err) =>
        on_page (setError (or_else err "Failed to update file")) s
    | update_response _ None | update_unreachable =>
        on_page (setError "Failed to update file") s
    end.

(** *** What the page renders *)

Inductive View := TokenForm | LoadingInfo | FileNotFound | Management.

#[global] Instance View_eq_dec : EqDecision View.
Proof. solve_decision. Defined.

Definition view (s : State) : View :=
  if negb (isAuthenticated (page s)) then TokenForm
  else if loading s then LoadingInfo
  else match fileInfo s with
       | None => FileNotFound
       | Some _ => Management
       end.

(** "Update Archive" is disabled when nothing is selected or an update is
    running. *)
Definition update_disabled (s : State) : bool :=
  bool_decide (pendingFiles s = []) &&
  bool_decide (filesToDelete (page s) = [])
  || updateLoading s.

(** What the user and the network can do to the page. The token field and
    its button belong to the token form, the file lists and the update
    button to the management view. *)
Inductive Action :=
| type_token (v : string)
| submit_token
| metadata_arrives (r : MetadataResponse)
| add_files (picked : option (list LocalFile))
| remove_pending (idx : nat)
| click_row (fileToken : string)
| click_update (fileId : string)
| update_arrives (r : UpdateResponse) (reload : MetadataResponse).

Definition offered (a : Action) (s : State) : bool :=
  match a with
  | type_token _ | submit_token =>
      bool_decide (view s = TokenForm)
  | metadata_arrives _ => isAuthenticated (page s) && loading s
  | add_files _ =>
      bool_decide (view s = Management) && negb (updateLoading s)
  | remove_pending _ | click_row _ => bool_decide (view s = Management)
  | click_update _ =>
      bool_decide (view s = Management) && negb (update_disabled s)
  | update_arrives _ _ => updateLoading s
  end.

Definition act (a : Action) (s : State) : State :=
  match a with
  | type_token v => on_page (setEditToken v) s
  | submit_token => authenticate s
  | metadata_arrives r => loadFileData_resume r s
  | add_files picked => handleAddFiles picked s
  | remove_pending idx => handleRemovePendingFile idx s
  | click_row t => click_row_button t s
  | click_update fileId => (handleUpdateFiles_begin fileId s).2
  | update_arrives r reload => handleUpdateFiles_resume r reload s
  end.

(** The states the page gets into from its first render. *)
Inductive reachable : State → Prop :=
| reachable_initial : reachable initialState
| reachable_act a s :
    reachable s → offered a s = true → reachable (act a s).

(** The rows of the archive carry tokens that are all different. *)
Definition distinct_rows (s : State) : Prop :=
  match fileInfo s with
  | Some info => NoDup (file_token <$> default [] (files info))
  | None => True
  end.

(** What every page a user can get to satisfies: it is authenticated only
    with a token of at least 10 characters, and no file is marked for
    deletion twice. *)
Definition sound (s : State) : Prop :=
  (isAuthenticated (page s) = true →
   (10 ≤ String.length (editToken (page s)))%nat)
  ∧ NoDup (filesToDelete (page s)).

(** A sample archive of two files, and the page after its owner typed a
    token, submitted it, received the archive's data and clicked Delete on
    the first row. *)
Definition stored_archive : FileInfo :=
  {| id := "abc"; name := "photos.zip"; size := 2048;
     type := "application/zip"; uploadDate := "2024-01-01T00:00:00.000Z";
     downloadCount := 0; maxDownloads := 5;
     expiryDate := "2024-01-02T00:00:00.000Z";
     isPasswordProtected := false; virusScanStatus := "clean";
     files :=
       Some [ {| file_name := "a.png"; file_path := "a.png";
                 sub_size := 1024; mime_type := "image/png";
                 file_token := "t1"; extracted := false;
                 downloaded_at := None |};
              {| file_name := "b.png"; file_path := "b.png";
                 sub_size := 1024; mime_type := "image/png";
                 file_token := "t2"; extracted := false;
                 downloaded_at := None |} ];
     appwrite_id := "obj-1"; isActive := true |}.

Definition marked_page : State :=
  act (click_row "t1")
    (act (metadata_arrives
            (metadata_response true (Some (Some stored_archive))))
       (act submit_token
          (act (type_token "0123456789") initialState))).

End ManagePage.

(* ===================================================================== *)
(** * Properties of the chat hook *)
(* ===================================================================== *)

Module ChatFacts.
Import JS Chat.

Section Sorting.
Variable Date_getTime : string → number.

Local Abbreviation R := (created_le Date_getTime).
Local Abbreviation cmp := (byCreatedAt Date_getTime).

Lemma sort_insert_perm {A} (c : A → A → number) x l :
  sort_insert c x l ≡ₚ x :: l.
Proof.
  induction l as [|y l IH]; simpl; [done|].
  case_match; [done|].
  rewrite IH. apply Permutation_swap.
Qed.

Lemma Array_sort_perm {A} (c : A → A → number) l : Array_sort c l ≡ₚ l.
Proof.
  induction l as [|x l IH]; simpl; [done|].
  rewrite sort_insert_perm. by constructor.
Qed.

Lemma created_le_trans a b c : R a b → R b c → R a c.
Proof.
  unfold created_le.
  destruct (Date_getTime (ChatMessage.createdAt a)),
           (Date_getTime (ChatMessage.createdAt b)),
           (Date_getTime (ChatMessage.createdAt c)); try done. lia.
Qed.

Lemma compare_le a b :
  valid_date Date_getTime a → valid_date Date_getTime b →
  SortCompare cmp a b <= 0 → R a b.
Proof.
  unfold valid_date, SortCompare, byCreatedAt, created_le.
  destruct (Date_getTime (ChatMessage.createdAt a)),
           (Date_getTime (ChatMessage.createdAt b)); simpl; try done. lia.
Qed.

Lemma compare_gt a b :
  valid_date Date_getTime a → valid_date Date_getTime b →
  ¬ SortCompare cmp a b <= 0 → R b a.
Proof.
  unfold valid_date, SortCompare, byCreatedAt, created_le.
  destruct (Date_getTime (ChatMessage.createdAt a)),
           (Date_getTime (ChatMessage.createdAt b)); simpl; try done. lia.
Qed.

Lemma sort_insert_sorted x l :
  valid_date Date_getTime x → Forall (valid_date Date_getTime) l →
  StronglySorted R l → StronglySorted R (sort_insert cmp x l).
Proof.
  intros Hx Hl Hs. induction Hs as [|y l Hs IH Hy]; simpl.
  - repeat constructor.
  - inversion_clear Hl as [|? ? Hvy Hvl].
    destruct (Z.leb_spec (SortCompare cmp x y) 0) as [Hle|Hgt].
    + constructor; [by constructor|].
      pose proof (compare_le _ _ Hx Hvy Hle) as Hxy.
      constructor; [done|].
      eapply Forall_impl; [exact Hy|]. intros z. by apply created_le_trans.
    + constructor; [by apply IH|].
      rewrite sort_insert_perm. constructor; [|done].
      apply compare_gt; [done..|lia].
Qed.

Lemma Array_sort_sorted l :
  Forall (valid_date Date_getTime) l →
  ascending Date_getTime (Array_sort cmp l).
Proof.
  unfold ascending. induction 1 as [|x l Hx Hl IH]; simpl; [constructor|].
  apply sort_insert_sorted; [done| |done].
  by rewrite Array_sort_perm.
Qed.

Lemma snoc_sorted l x :
  StronglySorted R l → Forall (λ y, R y x) l → StronglySorted R (l ++ [x]).
Proof.
  induction 1 as [|y l Hs IH Hy]; simpl; intros Hall.
  - repeat constructor.
  - inversion_clear Hall as [|? ? Hyx Hrest].
    constructor; [by apply IH|].
    apply Forall_app; split; [done|]. by constructor.
Qed.

End Sorting.

Lemma NoDup_ids_sorted gt (ms : list ChatMessage.t) :
  NoDup (ChatMessage.id <$> ms) →
  NoDup (ChatMessage.id <$> Array_sort (byCreatedAt gt) ms).
Proof. intros Hnd. by rewrite Array_sort_perm. Qed.

Lemma update_keeps_ids (u : ParticipantRow) (ps : list ChatParticipant.t) :
  ChatParticipant.id <$>
    ((λ p, if bool_decide (ChatParticipant.id p = p_id u)
           then ChatParticipant.mk
                  (ChatParticipant.id p) (ChatParticipant.roomId p)
                  (ChatParticipant.username p) (ChatParticipant.joinedAt p)
                  (p_last_seen u) (p_is_online u) (ChatParticipant.userId p)
           else p) <$> ps)
  = ChatParticipant.id <$> ps.
Proof.
  rewrite <- list_fmap_compose. apply list_fmap_ext.
  intros i p _. simpl. by case_bool_decide.
Qed.

(** The state the hook starts from is deduplicated and ordered. *)
Lemma initialState_in_order gt : deduplicated_and_ordered gt initialState.
Proof. repeat split; constructor. Qed.

(** C1 (as amended): merging a completed fetch or a change event keeps the
    message ids unique, the messages ascending by createdAt and the
    participant ids unique, provided the server behaves: a fetched list has
    distinct ids and real dates (it is then sorted by the hook), and an
    inserted row, which the hook appends without looking at the list,
    carries a new id and, for a message, a date not earlier than the listed
    ones. *)
Theorem merge_keeps_order gt (ev : Event) (h : Hook) :
  deduplicated_and_ordered gt (state h) →
  well_behaved gt ev (state h) →
  deduplicated_and_ordered gt (state (merge gt ev h)).
Proof.
  intros (Hm & Ho & Hp) Hev.
  destruct h as [[ms ps c l e lm] [] ch rt tm nh]; simpl in *;
    destruct ev as [[fetched|msg] now|[fetched|msg] now|[row|]|[row|]|[row|]];
    simpl in *; try (by repeat split).
  - destruct Hev as [Hnd Hvalid]. repeat split; simpl; [|  |done].
    + by apply NoDup_ids_sorted.
    + by apply Array_sort_sorted.
  - destruct Hev as (Hfresh & Hvalid & Hlate). repeat split; simpl; [| |done].
    + rewrite fmap_app. apply NoDup_app. repeat split; [done| |].
      * intros i Hi Hi'. apply list_elem_of_singleton in Hi'. by subst.
      * apply NoDup_singleton.
    + by apply snoc_sorted.
  - repeat split; simpl; [done..|].
    rewrite fmap_app. apply NoDup_app. repeat split; [done| |].
    + intros i Hi Hi'. apply list_elem_of_singleton in Hi'. by subst.
    + apply NoDup_singleton.
  - repeat split; simpl; [done..|]. by rewrite update_keeps_ids.
Qed.

(** C1 (as stated) fails: a hook that lists message "m1", dated 00:00:02,
    receives an INSERT event for a row with the same id dated 00:00:01 and
    appends it: the id is listed twice and the dates descend. The same
    happens to a participant id that arrives twice. *)
Lemma insert_breaks_order :
  let h := Scenario.hook
             [Scenario.msg "m1" "2024-01-01T00:00:02.000Z"]
             [Scenario.member "p1" true] in
  let late := Scenario.msg_row "m1" "2024-01-01T00:00:01.000Z" in
  let again := Scenario.member_row "p1" "2024-01-01T00:00:03.000Z" true in
  deduplicated_and_ordered Scenario.utc (state h)
  ∧ ChatMessage.id <$> messages (state (on_message_INSERT (Some late) h))
    = ["m1"; "m1"]
  ∧ ChatMessage.createdAt
      <$> messages (state (on_message_INSERT (Some late) h))
    = ["2024-01-01T00:00:02.000Z"; "2024-01-01T00:00:01.000Z"]
  ∧ ¬ NoDup (ChatMessage.id
               <$> messages (state (on_message_INSERT (Some late) h)))
  ∧ ¬ ascending Scenario.utc
        (messages (state (on_message_INSERT (Some late) h)))
  ∧ ¬ NoDup (ChatParticipant.id
               <$> participants
                     (state (on_participant_INSERT (Some again) h)))
  ∧ ¬ deduplicated_and_ordered Scenario.utc
        (state (merge Scenario.utc (message_INSERT (Some late)) h)).
Proof.
  assert (Hdup : ∀ x : string, ¬ NoDup [x; x]).
  { intros x Hnd. apply NoDup_cons in Hnd as [Hx _]. apply Hx. by left. }
  assert (Hdesc : ¬ ascending Scenario.utc
            [Scenario.msg "m1" "2024-01-01T00:00:02.000Z";
             Scenario.msg "m1" "2024-01-01T00:00:01.000Z"]).
  { intros Hs. inversion_clear Hs as [|? ? _ Hall].
    inversion_clear Hall as [|? ? Hle _].
    vm_compute in Hle. by apply Hle. }
  cbv zeta. split_and!.
  - repeat split; repeat constructor; set_solver.
  - reflexivity.
  - reflexivity.
  - apply (Hdup "m1").
  - exact Hdesc.
  - apply (Hdup "p1").
  - intros (Hnd & _). by apply (Hdup "m1").
Qed.

Lemma merge_keeps_order_witness :
  let h := Scenario.hook
             [Scenario.msg "m1" "2024-01-01T00:00:01.000Z"]
             [Scenario.member "p1" true] in
  let ev := message_INSERT
              (Some (Scenario.msg_row "m2" "2024-01-01T00:00:02.000Z")) in
  deduplicated_and_ordered Scenario.utc (state h)
  ∧ well_behaved Scenario.utc ev (state h)
  ∧ deduplicated_and_ordered Scenario.utc (state (merge Scenario.utc ev h)).
Proof.
  assert (H1 : deduplicated_and_ordered Scenario.utc
                 (state (Scenario.hook
                    [Scenario.msg "m1" "2024-01-01T00:00:01.000Z"]
                    [Scenario.member "p1" true]))).
  { repeat split; repeat constructor; set_solver. }
  assert (H2 : well_behaved Scenario.utc
                 (message_INSERT
                    (Some (Scenario.msg_row "m2" "2024-01-01T00:00:02.000Z")))
                 (state (Scenario.hook
                    [Scenario.msg "m1" "2024-01-01T00:00:01.000Z"]
                    [Scenario.member "p1" true]))).
  { repeat split.
    - simpl. by intros ?%list_elem_of_singleton.
    - by vm_compute.
    - repeat constructor. by vm_compute. }
  split; [exact H1|]. split; [exact H2|].
  exact (merge_keeps_order Scenario.utc _ _ H1 H2).
Defined.

(** C7: an UPDATE event for participant [u] leaves everything in the hook
    as it was except the participants list, which keeps its length; the
    participant at each position keeps id, roomId, username, joinedAt and
    userId, is untouched when its id differs from [u]'s, and takes [u]'s
    lastSeen and isOnline when its id is [u]'s (and the hook is mounted). *)
Theorem participant_update_frame (u : ParticipantRow) (h : Hook)
    (i : nat) (p : ChatParticipant.t) :
  participants (state h) !! i = Some p →
  let h' := on_participant_UPDATE (Some u) h in
  (∃ p', participants (state h') !! i = Some p'
     ∧ ChatParticipant.id p' = ChatParticipant.id p
     ∧ ChatParticipant.roomId p' = ChatParticipant.roomId p
     ∧ ChatParticipant.username p' = ChatParticipant.username p
     ∧ ChatParticipant.joinedAt p' = ChatParticipant.joinedAt p
     ∧ ChatParticipant.userId p' = ChatParticipant.userId p
     ∧ (ChatParticipant.id p ≠ p_id u → p' = p)
     ∧ (ChatParticipant.id p = p_id u → isMountedRef h = true →
        ChatParticipant.lastSeen p' = p_last_seen u
        ∧ ChatParticipant.isOnline p' = p_is_online u))
  ∧ length (participants (state h')) = length (participants (state h))
  ∧ messages (state h') = messages (state h)
  ∧ isConnected (state h') = isConnected (state h)
  ∧ isLoading (state h') = isLoading (state h)
  ∧ error (state h') = error (state h)
  ∧ lastMessageId (state h') = lastMessageId (state h)
  ∧ isMountedRef h' = isMountedRef h
  ∧ channelRef h' = channelRef h
  ∧ reconnectTimeoutRef h' = reconnectTimeoutRef h
  ∧ timers h' = timers h
  ∧ nextHandle h' = nextHandle h.
Proof.
  intros Hp. cbv zeta. unfold on_participant_UPDATE.
  destruct (isMountedRef h) eqn:Hm; simpl.
  - split_and!; try done; [|by rewrite length_fmap].
    rewrite list_lookup_fmap, Hp. simpl.
    case_bool_decide as Hid; eexists; (split; [reflexivity|]);
      simpl; split_and!; done.
  - split_and!; try done. exists p. split_and!; done.
Qed.

Lemma participant_update_frame_witness :
  let h := Scenario.hook [Scenario.msg "m1" "2024-01-01T00:00:01.000Z"]
             [Scenario.member "p1" true; Scenario.member "p2" true] in
  let u := Scenario.member_row "p1" "2024-01-01T00:00:03.000Z" false in
  participants (state (on_participant_UPDATE (Some u) h))
  = [ChatParticipant.mk "p1" "room" "ann" "2024-01-01T00:00:01.000Z"
       "2024-01-01T00:00:03.000Z" false None;
     Scenario.member "p2" true]
  ∧ messages (state (on_participant_UPDATE (Some u) h))
    = messages (state h).
Proof.
  split; [reflexivity|].
  exact (proj1 (proj2 (proj2
    (participant_update_frame
       (Scenario.member_row "p1" "2024-01-01T00:00:03.000Z" false)
       (Scenario.hook [Scenario.msg "m1" "2024-01-01T00:00:01.000Z"]
          [Scenario.member "p1" true; Scenario.member "p2" true])
       1%nat (Scenario.member "p2" true) eq_refl)))).
Defined.

(** *** makeRequest *)

Lemma makeRequest_unfold {T} (net : nat → FetchResult T) url k :
  makeRequest net url k =
  match attempt (net k) with
  | resolved d => (resolved d, [io_fetch url])
  | rejected e =>
      if decide (k < RETRY_ATTEMPTS)%nat
      then after [io_fetch url; io_sleep (RETRY_DELAY * (Z.of_nat k + 1))]
                 (makeRequest net url (k + 1))
      else (rejected e, [io_fetch url])
  end.
Proof.
  rewrite makeRequest_equation_1.
  destruct (attempt (net k)) as [data|e].
  - apply makeRequest_clause_1_equation_1.
  - rewrite makeRequest_clause_1_equation_2.
    destruct (decide _) as [Hlt|Hge].
    + apply makeRequest_clause_1_clause_2_equation_1.
    + apply makeRequest_clause_1_clause_2_equation_2.
Qed.

(** From any retry count on, the request runs [m] failed attempts, each
    followed by its pause, and ends with the attempt that succeeds or with
    the one that uses up the retries. *)
Lemma makeRequest_from {T} (net : nat → FetchResult T) url (d k : nat) :
  (k + d = RETRY_ATTEMPTS)%nat →
  ∃ m : nat, (m ≤ d)%nat
    ∧ makeRequest net url k = (attempt (net (k + m)%nat), backoff url k m)
    ∧ (∀ j, (k ≤ j < k + m)%nat → ∃ e, attempt (net j) = rejected e)
    ∧ ((∃ data, attempt (net (k + m)%nat) = resolved data) ∨ m = d).
Proof.
  revert k. induction d as [|d IH]; intros k Hk.
  - exists 0%nat. rewrite Nat.add_0_r, makeRequest_unfold.
    split_and!; [lia| |intros; lia|by right].
    destruct (attempt (net k)); [done|].
    destruct (decide _); [lia|done].
  - rewrite makeRequest_unfold.
    destruct (attempt (net k)) as [data|e] eqn:Hk0.
    + exists 0%nat. rewrite Nat.add_0_r, Hk0.
      split_and!; [lia|done|intros; lia|left; eauto].
    + destruct (decide _) as [_|Hge]; [|lia].
      destruct (IH (k + 1)%nat ltac:(lia)) as (m & Hm & Hrun & Hfail & Hend).
      exists (S m). replace (k + S m)%nat with (k + 1 + m)%nat by lia.
      split_and!; [lia| | |].
      * rewrite Hrun. unfold after. simpl.
        by replace (k + 1)%nat with (S k) by lia.
      * intros j Hj. destruct (decide (j = k)) as [->|Hne]; [eauto|].
        apply Hfail. lia.
      * destruct Hend as [Hok| ->]; [by left|by right].
Qed.

Lemma backoff_fetches url k n : length (fetches (backoff url k n)) = S n.
Proof. revert k. induction n as [|n IH]; intros k; simpl; [done|]. by rewrite IH. Qed.

Lemma backoff_sleeps url k n :
  sleeps (backoff url k n)
  = (λ i : nat, RETRY_DELAY * (Z.of_nat i + 1)) <$> seq k n.
Proof.
  revert k. induction n as [|n IH]; intros k; simpl; [done|].
  by rewrite IH.
Qed.

(** C8: a request of the client, started with the default retry count,
    makes [n + 1] fetches for some [n <= RETRY_ATTEMPTS], so at most 4; the
    attempts before the last all failed, and the pause after the k-th
    failure is RETRY_DELAY * k (1000, 2000, 3000); the request ends with the
    outcome of its last attempt, which is a success or, the retries being
    used up, the error of the fourth attempt. And a subscription status
    CHANNEL_ERROR or TIMED_OUT schedules [reconnect] after RECONNECT_DELAY,
    5000 ms, and stores the timer's handle. *)
Theorem retry_and_reconnect {T} (net : nat → FetchResult T)
    (url status : string) (h : Hook) :
  status = "CHANNEL_ERROR" ∨ status = "TIMED_OUT" →
  (∃ n : nat, (n ≤ RETRY_ATTEMPTS)%nat
     ∧ (1 + RETRY_ATTEMPTS = 4)%nat
     ∧ makeRequest net url 0 = (attempt (net n), backoff url 0 n)
     ∧ length (fetches (makeRequest net url 0).2) = S n
     ∧ sleeps (makeRequest net url 0).2 = take n [1000; 2000; 3000]
     ∧ (∀ k, (k < n)%nat → ∃ e, attempt (net k) = rejected e)
     ∧ ((∃ data, attempt (net n) = resolved data) ∨ n = RETRY_ATTEMPTS))
  ∧ timers (on_status status h)
    = timers h ++ [{| handle := nextHandle h; callback := cb_reconnect;
                      delay := 5000 |}]
  ∧ reconnectTimeoutRef (on_status status h) = Some (nextHandle h)
  ∧ RECONNECT_DELAY = 5000.
Proof.
  intros Hstatus. split_and!; [| | |done].
  - destruct (makeRequest_from net url RETRY_ATTEMPTS 0 eq_refl)
      as (n & Hn & Hrun & Hfail & Hend).
    exists n. simpl in Hrun, Hend. rewrite Hrun. cbn [snd].
    split_and!; [done|done|done|apply backoff_fetches| |
                 intros k Hk; apply Hfail; lia|done].
    rewrite backoff_sleeps. unfold RETRY_ATTEMPTS in Hn.
    destruct n as [|[|[|[|n]]]]; [done..|lia].
  - destruct h as [st [] ch rt tm nh];
      by destruct Hstatus as [-> | ->].
  - destruct h as [st [] ch rt tm nh];
      by destruct Hstatus as [-> | ->].
Qed.

Lemma retry_and_reconnect_witness :
  let down : nat → FetchResult unit :=
    λ _, response false 503 "Service Unavailable" (bad_json "") in
  makeRequest down "/api/chat/messages?roomId=r&limit=100" 0
  = (rejected "HTTP 503: Service Unavailable",
     [io_fetch "/api/chat/messages?roomId=r&limit=100"; io_sleep 1000;
      io_fetch "/api/chat/messages?roomId=r&limit=100"; io_sleep 2000;
      io_fetch "/api/chat/messages?roomId=r&limit=100"; io_sleep 3000;
      io_fetch "/api/chat/messages?roomId=r&limit=100"])
  ∧ timers (on_status "TIMED_OUT" (Scenario.hook [] []))
    = [{| handle := 0; callback := cb_reconnect; delay := 5000 |}].
Proof.
  split; [reflexivity|].
  exact (proj1 (proj2
    (retry_and_reconnect (T:=unit)
       (λ _, response false 503 "Service Unavailable" (bad_json ""))
       "/api/chat/messages?roomId=r&limit=100" "TIMED_OUT"
       (Scenario.hook [] []) (or_intror eq_refl)))).
Defined.

End ChatFacts.

(* ===================================================================== *)
(** * Properties of the management page *)
(* ===================================================================== *)

Module ManageFacts.
Import Manage.

Lemma filter_other_id (t : string) (l : list string) :
  t ∉ l → filter (λ token, token ≠ t) l = l.
Proof.
  induction l as [|x l IH]; [done|].
  intros [Hx Hl]%not_elem_of_cons.
  rewrite filter_cons_True by done. by rewrite IH.
Qed.

(** C9: marking a file token that is not in filesToDelete and undoing it
    gives back the page as it was, filesToDelete included; undoing such a
    token without marking it changes nothing. *)
Theorem delete_then_undo (t : string) (p : Page) :
  t ∉ filesToDelete p →
  handleUndoDeleteExistingFile t (handleDeleteExistingFile t p) = p
  ∧ filesToDelete
      (handleUndoDeleteExistingFile t (handleDeleteExistingFile t p))
    = filesToDelete p
  ∧ handleUndoDeleteExistingFile t p = p.
Proof.
  intros Ht.
  assert (Hback : filter (λ token, token ≠ t) (filesToDelete p ++ [t])
                  = filesToDelete p).
  { rewrite filter_app, filter_other_id by done.
    rewrite filter_cons_False by (by intros ?).
    by rewrite filter_nil, app_nil_r. }
  destruct p as [tok auth err marked]; simpl in *.
  unfold handleUndoDeleteExistingFile, handleDeleteExistingFile,
    setFilesToDelete; simpl.
  rewrite Hback, filter_other_id by done. done.
Qed.

Lemma delete_then_undo_witness :
  let p := Scenario.page_with "0123456789" ["a"; "b"] in
  ("c" ∉ filesToDelete p)
  ∧ filesToDelete (handleDeleteExistingFile "c" p) = ["a"; "b"; "c"]
  ∧ handleUndoDeleteExistingFile "c" (handleDeleteExistingFile "c" p) = p.
Proof.
  assert (Hc : "c" ∉ ["a"; "b"]).
  { intros Hin. apply elem_of_cons in Hin as [Hin|Hin]; [done|].
    by apply list_elem_of_singleton in Hin. }
  split; [exact Hc|]. split; [reflexivity|].
  exact (proj1 (delete_then_undo "c"
                  (Scenario.page_with "0123456789" ["a"; "b"]) Hc)).
Defined.

(** C3 (as amended): on the page that asks for the token,
    handleAuthenticate grants access exactly when the supplied token has at
    least 10 characters; it then clears the error, and otherwise sets the
    error 'Invalid edit token.' and grants nothing. The token is compared
    with nothing: the file's edit token plays no part. *)
Theorem authenticate_checks_length (p : Page) :
  isAuthenticated p = false →
  (isAuthenticated (handleAuthenticate p) = true
   ↔ (10 ≤ String.length (editToken p))%nat)
  ∧ (isAuthenticated (handleAuthenticate p) = true
     → error (handleAuthenticate p) = "")
  ∧ (isAuthenticated (handleAuthenticate p) = false
     → error (handleAuthenticate p) = "Invalid edit token.")
  ∧ editToken (handleAuthenticate p) = editToken p
  ∧ filesToDelete (handleAuthenticate p) = filesToDelete p.
Proof.
  intros Hno. unfold handleAuthenticate.
  destruct (String.eqb_spec (editToken p) "") as [Hempty|Hfull]; simpl.
  - rewrite Hno, Hempty. simpl. split_and!; try done. split; [done|lia].
  - destruct (Z.leb_spec 10 (Z.of_nat (String.length (editToken p))));
      simpl; rewrite ?Hno; split_and!; try done; split; try done; lia.
Qed.

Lemma authenticate_checks_length_witness :
  let p := Scenario.page_with "0123456789" [] in
  isAuthenticated p = false
  ∧ isAuthenticated (handleAuthenticate p) = true.
Proof.
  split; [reflexivity|].
  exact (proj2 (proj1 (authenticate_checks_length
                         (Scenario.page_with "0123456789" []) eq_refl))
               ltac:(simpl; lia)).
Defined.

(** C3 (as stated) fails: with the digits 0123456789 typed as the token,
    which is not the file's edit token, handleAuthenticate grants access
    and shows no error; so does any other string of ten characters. *)
Lemma authenticates_without_the_token :
  let p := handleAuthenticate (Scenario.page_with "0123456789" []) in
  let q := handleAuthenticate (Scenario.page_with "aaaaaaaaaa" []) in
  "0123456789" ≠ Scenario.file_edit_token
  ∧ isAuthenticated p = true ∧ showsManagement p = true ∧ error p = ""
  ∧ isAuthenticated q = true
  ∧ ¬ (∀ supplied : string,
         isAuthenticated
           (handleAuthenticate (Scenario.page_with supplied [])) = true
         → supplied = Scenario.file_edit_token).
Proof.
  cbv zeta. split_and!; try done.
  intros Hclaim. by specialize (Hclaim "0123456789" eq_refl).
Qed.

(** *** formatFileSize *)

(** Below 1024^4 bytes the unit index stays within the list. *)
Lemma unit_defined_below_TiB (n : Z) :
  0 < n < 1024 ^ 4 → ∃ u, sizes !! Z.to_nat (floor_log 1024 n) = Some u.
Proof.
  intros [Hpos Hlt]. unfold floor_log.
  assert (Hlog : 0 <= Z.log2 n < 40).
  { split; [apply Z.log2_nonneg|]. apply Z.log2_lt_pow2; [done|].
    by replace (2 ^ 40) with (1024 ^ 4) by reflexivity. }
  change (Z.log2 1024) with 10.
  assert (Hi : 0 <= Z.log2 n / 10 < 4).
  { split; [apply Z.div_pos; lia|]. apply Z.div_lt_upper_bound; lia. }
  apply lookup_lt_is_Some. simpl. lia.
Qed.

(** From 1024^4 bytes on the unit index is past the list: the unit reads
    "undefined". *)
Lemma unit_undefined_from_TiB (n : Z) :
  1024 ^ 4 <= n → unit_at (floor_log 1024 n) = "undefined".
Proof.
  intros Hge. unfold unit_at, floor_log.
  assert (Hlog : 40 <= Z.log2 n).
  { change 40 with (Z.log2 (1024 ^ 4)). by apply Z.log2_le_mono. }
  change (Z.log2 1024) with 10.
  assert (Hi : 4 <= Z.log2 n / 10).
  { apply Z.div_le_lower_bound; lia. }
  rewrite lookup_ge_None_2; [done|]. simpl. lia.
Qed.

(** C10: at 2 TiB (2^41 bytes) the index is 4, one past the four units, and
    formatFileSize returns "2 undefined": no defined unit follows the
    number. *)
Theorem formatFileSize_two_TiB :
  floor_log 1024 2199023255552 = 4
  ∧ sizes !! Z.to_nat (floor_log 1024 2199023255552) = None
  ∧ formatFileSize 2199023255552 = "2 undefined"
  ∧ formatFileSize 0 = "0 Bytes"
  ∧ formatFileSize 1536 = "1.5 KB"
  ∧ formatFileSize 734003200 = "700 MB".
Proof. split_and!; reflexivity. Qed.

End ManageFacts.

(* ===================================================================== *)
(** * Properties of the upload route *)
(* ===================================================================== *)

Module UploadFacts.
Import JS Upload.

#[local] Arguments parseInt : simpl never.
#[local] Arguments Date_toISOString : simpl never.
#[local] Arguments truthy : simpl never.
#[local] Arguments or_else : simpl never.
#[local] Arguments configured : simpl never.
#[local] Arguments expiry : simpl never.
#[local] Arguments add : simpl never.
#[local] Arguments mul : simpl never.

(** Unfold the handler down to the answers of the services. *)
Ltac run :=
  unfold POST, POST_try, try_catch, fileUploadRateLimiter_isAllowed,
    formData, call_validateFileType, call_validateFileSize, call_generateId,
    call_generateSecureId, scanBuffer, audit_logs_insert, storage_upload,
    files_insert, setWithExpiry, took, await, modify, gets, throw;
  unfold mbind, M_bind, mret, M_ret; cbn.

(** Follow the path the hypotheses fix. *)
Ltac follow :=
  repeat (progress (cbn;
    repeat match goal with H : _ = _ |- _ => rewrite H end)).

(** Split on the innermost answer the goal still waits for. *)
Ltac branch :=
  match goal with
  | |- context [match ?x with _ => _ end] =>
      lazymatch x with
      | context [match _ with _ => _ end] => fail
      | truthy _ => fail
      | negb ?b => destruct b eqn:?
      | _ => destruct x eqn:?
      end
  end.

Ltac branches := repeat (branch; cbn).

Lemma taken_app (w w' : World) (l : list Step) :
  steps w' = steps w ++ l → taken w w' = l.
Proof. intros Hs. unfold taken. by rewrite Hs, drop_app_length. Qed.

(** The handler always answers: what is thrown inside is caught. *)
Lemma POST_responds `{Lib} env svc request (w : World) :
  ∃ resp w', POST env svc request w = (resolved resp, w').
Proof. run. branches; eauto. Qed.

Lemma toISOString_resolved (v : number) (iso : ISOString) :
  Date_toISOString v = resolved iso →
  ∃ t, v = Num t ∧ iso = ISO t ∧ Z.abs t <= 8640000000000000.
Proof.
  unfold Date_toISOString. destruct v as [t|]; [|done].
  destruct (Z.leb_spec (Z.abs t) 8640000000000000); [|done].
  intros [= <-]. eauto.
Qed.

Lemma hours_from_now (now t : Z) (h : number) :
  add (Num now) (mul (mul (mul h (Num 60)) (Num 60)) (Num 1000)) = Num t →
  ∃ hours, h = Num hours ∧ t = now + hours * 60 * 60 * 1000.
Proof. destruct h as [hours|]; [|done]. intros [= <-]. eauto. Qed.

(** C2: when the request reaches the scanner and the scanner reports the
    buffer as not clean, POST answers 400 'File contains malicious content
    and cannot be uploaded'; bucket, files table and cache are as before;
    the steps taken end with the audit record 'virus_detected' and contain
    neither the storage upload nor the metadata insert; the audit table
    gains that one record (nothing, if the database refuses it). *)
Theorem infected_upload_rejected `{Lib} env svc request (w : World)
    form file buffer scanResult :
  arrives env svc form file →
  validated env svc file buffer →
  virusScanner_scanBuffer svc buffer = resolved scanResult →
  isClean scanResult = false →
  ∃ w', POST env svc request w
        = (resolved
             (error_response
                "File contains malicious content and cannot be uploaded" 400),
           w')
    ∧ bucket w' = bucket w ∧ files w' = files w ∧ redis w' = redis w
    ∧ steps w' = steps w ++ infected_path
    ∧ (step_storage_upload ∉ taken w w')
    ∧ (step_files_insert ∉ taken w w')
    ∧ (step_setWithExpiry ∉ taken w w')
    ∧ audit_logs w'
      = audit_logs w ++
        match audit_insert_error svc with
        | Some _ => []
        | None =>
            [{| action := "virus_detected"; resource_type := "file";
                resource_id := generateId (ids_drawn w);
                ip_address := getClientIP request;
                audit_user_agent := user_agent request;
                metadata := virus_metadata (name file)
                              (signature scanResult)
                              (scan_message scanResult) |}]
        end.
Proof.
  intros (Hc & Hr & Hf & Hfile) (Ht & Hs & Hb) Hscan Hclean.
  assert (Hout : ∀ s, s ∈ infected_path →
            s ≠ step_storage_upload ∧ s ≠ step_files_insert
            ∧ s ≠ step_setWithExpiry).
  { intros s Hin. unfold infected_path in Hin.
    repeat (apply elem_of_cons in Hin as [->|Hin]; [done|]).
    by apply elem_of_nil in Hin. }
  run. follow.
  destruct (audit_insert_error svc); cbn;
    (eexists; split; [reflexivity|]); cbn; rewrite <- ?app_assoc; cbn.
  all: split_and!; try reflexivity; try (by rewrite app_nil_r).
  all: erewrite taken_app by reflexivity.
  all: intros Hin; apply Hout in Hin; by destruct Hin as (? & ? & ?).
Qed.

(** Whatever the services answer, the steps of a request follow the
    pipeline, or end with the audit record of an infected file. *)
Lemma steps_follow_pipeline `{Lib} env svc request (w : World) :
  ∃ done, steps (POST env svc request w).2 = steps w ++ done
    ∧ (done `prefix_of` pipeline ∨ done = infected_path).
Proof.
  run. branches.
  all: rewrite <- ?app_assoc; cbn.
  all: eexists; (split; [first [reflexivity|symmetry; apply app_nil_r]|]).
  all: first [right; reflexivity|left; eexists; reflexivity].
Qed.

(** A step is not among the steps listed. *)
Ltac not_taken Hin :=
  repeat (apply elem_of_cons in Hin as [Hin|Hin]; [discriminate Hin|]);
  by apply elem_of_nil in Hin.







Lemma truthy_false (e : option string) :
  truthy e = false ↔ e = None ∨ e = Some "".
Proof.
  unfold truthy. destruct e as [s|].
  - destruct (String.eqb_spec s "") as [->|Hs]; simpl.
    + split; [by right|done].
    + split; [done|]. by intros [?|[= ->]].
  - split; [by left|done].
Qed.

Lemma expires_condition (e : option string) :
  truthy e && negb (bool_decide (e = Some "never")) = true
  ↔ ∃ s, e = Some s ∧ s ≠ "" ∧ s ≠ "never".
Proof.
  rewrite andb_true_iff, negb_true_iff, bool_decide_eq_false.
  unfold truthy. destruct e as [s|].
  - rewrite negb_true_iff. destruct (String.eqb_spec s "") as [->|Hs].
    + split; [by intros [? _]|]. by intros (s & [= <-] & Hs & _).
    + split.
      * intros [_ Hn]. exists s. split_and!; [done..|]. by intros ->.
      * intros (s' & [= <-] & _ & Hn). split; [done|]. by intros [= ->].
  - split; [by intros [? _]|]. by intros (s & ? & _).
Qed.

(** What "Calculate expiry" yields when it does not throw. *)
Lemma expiry_resolved (svc : Services) (e : option string)
    (d : option ISOString) :
  expiry svc e = resolved d →
  (∀ s, e = Some s → s ≠ "" → s ≠ "never" →
     ∃ hours, parseInt s = Num hours
       ∧ d = Some (ISO (Date_now svc + hours * 60 * 60 * 1000)))
  ∧ (e = None ∨ e = Some "" ∨ e = Some "never" → d = None).
Proof.
  unfold expiry.
  destruct (truthy e && negb (bool_decide (e = Some "never"))) eqn:Hc.
  - apply expires_condition in Hc as (s & -> & Hs & Hn). simpl.
    destruct (Date_toISOString _) as [iso|] eqn:Hd; [|done].
    intros [= <-].
    apply toISOString_resolved in Hd as (t & Hadd & -> & _).
    apply hours_from_now in Hadd as (hours & Hh & ->).
    split.
    + intros s' [= <-] _ _. eauto.
    + intros [?|[[= ->]|[= ->]]]; done.
  - intros [= <-]. split; [|done].
    intros s -> Hs Hn.
    apply not_true_iff_false in Hc. destruct Hc.
    apply expires_condition. eauto.
Qed.

(** C6 (as amended): the row a request stores has, for an expiresIn that
    is a non-empty text other than 'never', the expiry date
    Date.now() + parseInt(expiresIn) * 60 * 60 * 1000 ms (parseInt yields a
    number there, else nothing is stored); for an expiresIn that is absent,
    empty or 'never', no expiry date; no password when none or an empty one
    is given; no max_downloads when none or an empty one is given. *)
Theorem stored_expiry `{Lib} env svc request (w : World) form r w' row :
  request_formData svc = resolved form →
  POST env svc request w = (r, w') →
  files w' = files w ++ [row] →
  (∀ s, form_expiresIn form = Some s → s ≠ "" → s ≠ "never" →
     ∃ hours, parseInt s = Num hours
       ∧ expiry_date row
         = Some (ISO (Date_now svc + hours * 60 * 60 * 1000)))
  ∧ (form_expiresIn form = None ∨ form_expiresIn form = Some ""
     ∨ form_expiresIn form = Some "never" → expiry_date row = None)
  ∧ (form_password form = None ∨ form_password form = Some "" →
     password row = None)
  ∧ (form_maxDownloads form = None ∨ form_maxDownloads form = Some "" →
     max_downloads row = None).
Proof.
  intros Hf. run. rewrite Hf. cbn.
  branches; intros [= <- <-] Hfiles; cbn in Hfiles.
  all: try (apply (f_equal length) in Hfiles;
            rewrite length_app in Hfiles; simpl in Hfiles; lia).
  all: apply app_inv_head in Hfiles; injection Hfiles as <-; cbn.
  all: match goal with
       | He : expiry _ _ = resolved _ |- _ =>
           apply expiry_resolved in He as [Hdate Hnone]
       end.
  all: split_and!; [exact Hdate|exact Hnone|..].
  all: intros Hnot; apply truthy_false in Hnot; by rewrite Hnot.
Qed.

(** C6 (as stated) fails: an upload whose form carries expiresIn = '' (a
    field that is present and is not 'never') stores a row without expiry
    date, not one dated upload time plus parseInt('') hours. *)
Lemma empty_expiresIn_stores_no_expiry :
  let form := Scenario.form_of Scenario.notes None (Some "") None in
  let svc := Scenario.services form Scenario.clean Scenario.stored None in
  let w' := (POST (H:=Scenario.lib) Scenario.env svc Scenario.request
               Scenario.empty_world).2 in
  form_expiresIn form = Some "" ∧ "" ≠ "never"
  ∧ parseInt "" = NaN
  ∧ expiry_date <$> files w' = [None]
  ∧ ¬ (∃ row hours, files w' = [row]
         ∧ expiry_date row
           = Some (ISO (Date_now svc + hours * 60 * 60 * 1000))).
Proof.
  cbv zeta. split_and!; try done.
  intros (row & hours & Hrow & Hexp).
  vm_compute in Hrow. injection Hrow as <-. discriminate Hexp.
Qed.

(** *** The theorems on concrete requests *)

Lemma scenario_tokens_distinct :
  Inj (=) (=) (generateSecureId (Lib := Scenario.lib)).
Proof.
  intros n m Heq. simpl in Heq. injection Heq as Heq.
  by apply (inj pretty).
Qed.

Lemma infected_upload_rejected_witness :
  let form := Scenario.form_of Scenario.notes None None None in
  let svc := Scenario.services form Scenario.infected Scenario.stored None in
  ∃ w', POST (H:=Scenario.lib) Scenario.env svc Scenario.request
             Scenario.empty_world
        = (resolved
             (error_response
                "File contains malicious content and cannot be uploaded" 400),
           w')
    ∧ bucket w' = [] ∧ files w' = [] ∧ redis w' = ∅
    ∧ action <$> audit_logs w' = ["virus_detected"].
Proof.
  cbv zeta.
  destruct (infected_upload_rejected (H:=Scenario.lib) Scenario.env
              (Scenario.services
                 (Scenario.form_of Scenario.notes None None None)
                 Scenario.infected Scenario.stored None)
              Scenario.request Scenario.empty_world
              (Scenario.form_of Scenario.notes None None None)
              Scenario.notes (content Scenario.notes) Scenario.infected
              (conj eq_refl (conj eq_refl (conj eq_refl eq_refl)))
              (conj eq_refl (conj eq_refl eq_refl))
              eq_refl eq_refl)
    as (w' & Hrun & Hb & Hf & Hr & _ & _ & _ & _ & Ha).
  exists w'. split; [exact Hrun|].
  split; [exact Hb|]. split; [exact Hf|]. split; [exact Hr|].
  rewrite Ha. reflexivity.
Defined.



Lemma stored_expiry_witness :
  let form := Scenario.form_of Scenario.notes None (Some "24") None in
  let svc := Scenario.services form Scenario.clean Scenario.stored None in
  let run := POST (H:=Scenario.lib) Scenario.env svc Scenario.request
               Scenario.empty_world in
  ∃ row, files run.2 = [row]
    ∧ ∃ hours, parseInt "24" = Num hours
        ∧ expiry_date row
          = Some (ISO (1704067200000 + hours * 60 * 60 * 1000)).
Proof.
  cbv zeta.
  eexists. split; [reflexivity|].
  exact (proj1
    (stored_expiry (H:=Scenario.lib) Scenario.env
       (Scenario.services
          (Scenario.form_of Scenario.notes None (Some "24") None)
          Scenario.clean Scenario.stored None)
       Scenario.request Scenario.empty_world
       (Scenario.form_of Scenario.notes None (Some "24") None)
       _ _ _ eq_refl (surjective_pairing _) eq_refl)
    "24" eq_refl ltac:(discriminate) ltac:(discriminate)).
Defined.

End UploadFacts.

(* ===================================================================== *)
(** * Further properties of the chat hook *)
(* ===================================================================== *)

Module ChatSessionFacts.
Import JS Chat ChatSession.

(** X1: lastMessageId follows the list: whatever is merged, it names the
    message listed last. *)
Theorem merge_keeps_names_last gt (ev : Event) (h : Hook) :
  names_last (state h) → names_last (state (merge gt ev h)).
Proof.
  unfold names_last. intros Hlast.
  destruct h as [[ms ps c l e lm] [] ch rt tm nh]; simpl in *;
    destruct ev as [[fetched|msg] now|[fetched|msg] now|[row|]|[row|]|[row|]];
    simpl in *; try done.
  by rewrite last_snoc.
Qed.

Lemma merge_keeps_names_last_witness :
  let h := Scenario.hook [Scenario.msg "m1" "2024-01-01T00:00:01.000Z"] [] in
  let ev := message_INSERT
              (Some (Scenario.msg_row "m2" "2024-01-01T00:00:02.000Z")) in
  names_last (state h)
  ∧ lastMessageId (state (merge Scenario.utc ev h)) = Some "m2".
Proof.
  split; [reflexivity|].
  exact (merge_keeps_names_last Scenario.utc
           (message_INSERT
              (Some (Scenario.msg_row "m2" "2024-01-01T00:00:02.000Z")))
           (Scenario.hook [Scenario.msg "m1" "2024-01-01T00:00:01.000Z"] [])
           eq_refl).
Defined.

(** X2: Once the hook is unmounted nothing reaches the React state: no fetch
    that completes, no change event, no subscription status and no action
    changes it. *)
Theorem unmounted_state_is_frozen gt (h : Hook) (ev : Event)
    (status roomId : string) (rm : settled (list ChatMessage.t))
    (sent : settled ChatMessage.t) (joined : settled ChatParticipant.t)
    (now : Z) :
  isMountedRef h = false →
  state (merge gt ev h) = state h
  ∧ state (on_status status h) = state h
  ∧ state (fetchMessages gt rm now h) = state h
  ∧ state (sendMessage roomId sent now h).2 = state h
  ∧ state (joinRoom roomId joined now h).2 = state h.
Proof.
  intros Hm. destruct h as [st mounted ch rt tm nh]. simpl in Hm. subst.
  split_and!.
  - destruct ev as [[?|?] ?|[?|?] ?|[?|]|[?|]|[?|]]; reflexivity.
  - unfold on_status. simpl. by case_match.
  - by destruct rm.
  - unfold sendMessage. destruct (String.eqb roomId ""), sent; reflexivity.
  - unfold joinRoom. destruct (String.eqb roomId ""), joined; reflexivity.
Qed.

Lemma unmounted_state_is_frozen_witness :
  let h := set_isMountedRef false
             (Scenario.hook [Scenario.msg "m1" "2024-01-01T00:00:01.000Z"] [])
  in
  isMountedRef h = false
  ∧ messages (state (on_message_INSERT
       (Some (Scenario.msg_row "m2" "2024-01-01T00:00:02.000Z")) h))
    = [Scenario.msg "m1" "2024-01-01T00:00:01.000Z"].
Proof.
  split; [reflexivity|].
  exact (f_equal messages (proj1 (unmounted_state_is_frozen Scenario.utc
    (set_isMountedRef false
       (Scenario.hook [Scenario.msg "m1" "2024-01-01T00:00:01.000Z"] []))
    (message_INSERT (Some (Scenario.msg_row "m2" "2024-01-01T00:00:02.000Z")))
    "SUBSCRIBED" "room" (rejected "x") (rejected "x") (rejected "x") 0
    eq_refl))).
Defined.

(** X3: The cleanup of the effect releases the channel and forgets the stored
    timeout, which is no longer pending; the React state stays as it is:
    the flag that the hook is mounted is cleared first, so the
    [setConnected(false)] at the end has no effect. *)
Theorem cleanup_leaves_state (s : Session) :
  state (hook (cleanup s)) = state (hook s)
  ∧ isConnected (state (hook (cleanup s))) = isConnected (state (hook s))
  ∧ isMountedRef (hook (cleanup s)) = false
  ∧ channelRef (hook (cleanup s)) = false
  ∧ reconnectTimeoutRef (hook (cleanup s)) = None
  ∧ (∀ t x, reconnectTimeoutRef (hook s) = Some t →
       x ∈ timers (hook (cleanup s)) → handle x ≠ t)
  ∧ timers (hook (cleanup s)) ⊆ timers (hook s).
Proof.
  destruct s as [[st mounted ch rt tm nh] n].
  unfold cleanup, release_channel, clear_reconnect_timeout, on_hook.
  destruct ch, rt as [t|]; simpl.
  all: split_and!; try done.
  all: try (intros t' x [= <-] Hx; by apply list_elem_of_filter in Hx as [? _]).
  all: intros x Hx; by apply list_elem_of_filter in Hx as [_ ?].
Qed.

Lemma cleanup_leaves_state_witness :
  let h := on_status "TIMED_OUT" (Scenario.hook [] []) in
  let s := cleanup {| hook := h; subscribed := 1 |} in
  reconnectTimeoutRef h = Some 0%nat
  ∧ isConnected (state h) = false
  ∧ timers (hook s) = [] ∧ subscribed s = 0%nat.
Proof.
  split; [reflexivity|]. split; [reflexivity|]. split; [|reflexivity].
  destruct (timers (hook (cleanup
              {| hook := on_status "TIMED_OUT" (Scenario.hook [] []);
                 subscribed := 1 |}))) as [|x l] eqn:Hl; [reflexivity|].
  destruct (cleanup_leaves_state
              {| hook := on_status "TIMED_OUT" (Scenario.hook [] []);
                 subscribed := 1 |}) as (_ & _ & _ & _ & _ & Hgone & _).
  exfalso. apply (Hgone 0%nat x eq_refl); [rewrite Hl; by left|].
  vm_compute in Hl. discriminate Hl.
Defined.

Lemma merge_channelRef gt ev h : channelRef (merge gt ev h) = channelRef h.
Proof.
  destruct h as [st [] ch rt tm nh];
    destruct ev as [[?|?] ?|[?|?] ?|[?|]|[?|]|[?|]]; reflexivity.
Qed.

Lemma on_status_channelRef status h :
  channelRef (on_status status h) = channelRef h.
Proof.
  unfold on_status. destruct h as [st [] ch rt tm nh]; simpl;
    by case_match.
Qed.

(** X4: The hook never holds more than the one channel it has a reference to:
    mounting, cleaning up, reconnecting, the statuses of the subscription
    and whatever is merged keep the number of subscribed channels at one
    when a channel is held and at none otherwise. *)
Theorem one_channel_at_most gt (o : Op) (s : Session) :
  one_channel s → one_channel (run_op gt o s).
Proof.
  unfold one_channel. intros Hs.
  destruct o as [roomId throws now| |roomId rm rp throws now|st|ev];
    simpl; [| | | by rewrite on_status_channelRef
                | by rewrite merge_channelRef].
  all: destruct s as [[st mounted ch rt tm nh] n]; simpl in Hs.
  - unfold mount, setupRealtimeConnection, on_hook.
    destruct (String.eqb roomId ""), ch, throws; simpl; subst; done.
  - unfold cleanup, release_channel, clear_reconnect_timeout, on_hook.
    destruct ch, rt; simpl; subst; done.
  - unfold reconnect, reconnect_begin, setupRealtimeConnection,
      release_channel, clear_reconnect_timeout, on_hook.
    destruct (String.eqb roomId ""); simpl; [done|].
    destruct mounted, ch, rt, rm, rp, throws; simpl; subst; done.
Qed.

Lemma one_channel_at_most_witness :
  let s := {| hook := set_channelRef false (Scenario.hook [] []);
              subscribed := 0 |} in
  let s' := run_op Scenario.utc (op_mount "room" false 0)
              (run_op Scenario.utc (op_mount "room" false 0) s) in
  one_channel s ∧ subscribed s' = 1%nat.
Proof.
  split; [reflexivity|].
  pose proof (one_channel_at_most Scenario.utc (op_mount "room" false 0) _
                (one_channel_at_most Scenario.utc (op_mount "room" false 0)
                   {| hook := set_channelRef false (Scenario.hook [] []);
                      subscribed := 0 |} eq_refl)) as Hone.
  vm_compute in Hone. vm_compute. exact Hone.
Defined.

(** X5: Each error status stores its timeout over the previous one without
    cancelling it: after two of them the cleanup cancels the second
    timeout only, and the first reconnect is still pending when the hook
    is gone. *)
Theorem first_timeout_survives_cleanup (st1 st2 : string) (h : Hook)
    (n : nat) :
  st1 = "CHANNEL_ERROR" ∨ st1 = "TIMED_OUT" →
  st2 = "CHANNEL_ERROR" ∨ st2 = "TIMED_OUT" →
  Forall (λ x, handle x < nextHandle h)%nat (timers h) →
  let s := cleanup {| hook := on_status st2 (on_status st1 h);
                      subscribed := n |} in
  timers (hook s)
  = timers h ++ [{| handle := nextHandle h; callback := cb_reconnect;
                    delay := RECONNECT_DELAY |}]
  ∧ isMountedRef (hook s) = false.
Proof.
  intros H1 H2 Hwf. cbv zeta.
  assert (Hkeep : filter (λ x, handle x ≠ S (nextHandle h)) (timers h)
                  = timers h).
  { induction Hwf as [|x l Hx Hl IH]; [done|].
    rewrite filter_cons_True by lia. by rewrite IH. }
  destruct h as [st mounted ch rt tm nh]; simpl in *.
  unfold cleanup, release_channel, clear_reconnect_timeout, on_hook, on_status.
  destruct H1 as [-> | ->], H2 as [-> | ->], mounted, ch; simpl.
  all: rewrite <- app_assoc, filter_app, Hkeep; simpl.
  all: rewrite filter_cons_True by (simpl; lia).
  all: rewrite filter_cons_False by (simpl; intros Hne; by apply Hne).
  all: by rewrite filter_nil.
Qed.

Lemma first_timeout_survives_cleanup_witness :
  let s := cleanup {| hook := on_status "TIMED_OUT"
                        (on_status "CHANNEL_ERROR" (Scenario.hook [] []));
                      subscribed := 1 |} in
  timers (hook s)
  = [{| handle := 0; callback := cb_reconnect; delay := 5000 |}].
Proof.
  exact (proj1 (first_timeout_survives_cleanup "CHANNEL_ERROR" "TIMED_OUT"
                  (Scenario.hook [] []) 1
                  (or_introl eq_refl) (or_intror eq_refl)
                  (Forall_nil_2 _))).
Defined.

(** X6: reconnect does not ask whether the hook is still mounted: run on an
    unmounted hook that holds no channel, it leaves the React state alone
    but subscribes a channel. *)
Theorem reconnect_after_unmount_subscribes gt (roomId : string)
    (rm : settled (list ChatMessage.t))
    (rp : settled (list ChatParticipant.t)) (now : Z) (s : Session) :
  roomId ≠ "" →
  isMountedRef (hook s) = false →
  channelRef (hook s) = false →
  let s' := reconnect gt roomId rm rp false now s in
  state (hook s') = state (hook s)
  ∧ isMountedRef (hook s') = false
  ∧ channelRef (hook s') = true
  ∧ subscribed s' = S (subscribed s).
Proof.
  intros Hroom Hm Hch. cbv zeta.
  apply String.eqb_neq in Hroom.
  destruct s as [[st mounted ch rt tm nh] n]. simpl in *. subst.
  unfold reconnect, reconnect_begin, setupRealtimeConnection,
    release_channel, clear_reconnect_timeout, on_hook.
  rewrite Hroom. simpl.
  destruct rt as [t|], rm, rp; simpl; done.
Qed.

Lemma reconnect_after_unmount_subscribes_witness :
  let s := cleanup {| hook := Scenario.hook [] []; subscribed := 1 |} in
  subscribed s = 0%nat
  ∧ subscribed (reconnect Scenario.utc "room" (resolved []) (resolved [])
                  false 0 s) = 1%nat.
Proof.
  split; [reflexivity|].
  exact (proj2 (proj2 (proj2
    (reconnect_after_unmount_subscribes Scenario.utc "room"
       (resolved []) (resolved []) 0
       (cleanup {| hook := Scenario.hook [] []; subscribed := 1 |})
       ltac:(discriminate) eq_refl eq_refl)))).
Defined.

(** X7: A fetch of the messages that fails keeps the messages and the
    participants the hook had, records FETCH_MESSAGES_FAILED with the
    message of the error, and ends loading; one that succeeds leaves no
    error and ends loading too. *)
Theorem fetchMessages_settles gt (r : settled (list ChatMessage.t))
    (now : Z) (h : Hook) :
  isMountedRef h = true →
  let h' := fetchMessages gt r now h in
  isLoading (state h') = false
  ∧ participants (state h') = participants (state h)
  ∧ isConnected (state h') = isConnected (state h)
  ∧ match r with
    | resolved ms => error (state h') = None
    | rejected msg =>
        error (state h')
        = Some {| code := "FETCH_MESSAGES_FAILED"; message := msg;
                  timestamp := now |}
        ∧ messages (state h') = messages (state h)
        ∧ lastMessageId (state h') = lastMessageId (state h)
    end.
Proof.
  intros Hm. destruct h as [st mounted ch rt tm nh]. simpl in Hm. subst.
  by destruct r.
Qed.

Lemma fetchMessages_settles_witness :
  let h := Scenario.hook [Scenario.msg "m1" "2024-01-01T00:00:01.000Z"] [] in
  isMountedRef h = true
  ∧ isLoading (state (fetchMessages Scenario.utc (rejected "HTTP 500: x") 7 h))
    = false.
Proof.
  split; [reflexivity|].
  exact (proj1 (fetchMessages_settles Scenario.utc (rejected "HTTP 500: x") 7
    (Scenario.hook [Scenario.msg "m1" "2024-01-01T00:00:01.000Z"] [])
    eq_refl)).
Defined.

Lemma created_le_refl gt m : valid_date gt m → created_le gt m m.
Proof.
  unfold valid_date, created_le.
  destruct (gt (ChatMessage.createdAt m)); [lia|done].
Qed.

Lemma sorted_last_is_latest gt (l : list ChatMessage.t) (m : ChatMessage.t) :
  Forall (valid_date gt) l → ascending gt l → last l = Some m →
  ∀ x, x ∈ l → created_le gt x m.
Proof.
  unfold ascending. intros Hv Hs. revert m.
  induction Hs as [|y l Hs IH Hy]; intros m Hlast x Hx; [done|].
  inversion_clear Hv as [|? ? Hvy Hvl].
  destruct l as [|z l'].
  - simpl in Hlast. injection Hlast as <-.
    apply list_elem_of_singleton in Hx as ->. by apply created_le_refl.
  - change (last (y :: z :: l')) with (last (z :: l')) in Hlast.
    apply elem_of_cons in Hx as [->|Hx]; [|by eapply IH].
    rewrite Forall_forall in Hy. apply Hy.
    rewrite last_lookup in Hlast. by eapply list_elem_of_lookup_2.
Qed.

(** X8: A fetch that succeeds replaces the list by what was fetched, sorted:
    nothing is added or dropped, the dates ascend, and lastMessageId is
    the id of a fetched message that none of the others is later than
    (of none when nothing was fetched). *)
Theorem fetched_messages_sorted_latest gt (ms : list ChatMessage.t)
    (now : Z) (h : Hook) :
  isMountedRef h = true →
  Forall (valid_date gt) ms →
  let h' := fetchMessages gt (resolved ms) now h in
  messages (state h') ≡ₚ ms
  ∧ ascending gt (messages (state h'))
  ∧ names_last (state h')
  ∧ (ms = [] ↔ lastMessageId (state h') = None)
  ∧ (∀ i, lastMessageId (state h') = Some i →
       ∃ m, m ∈ ms ∧ ChatMessage.id m = i
            ∧ ∀ x, x ∈ ms → created_le gt x m).
Proof.
  intros Hm Hv. destruct h as [st mounted ch rt tm nh]. simpl in Hm. subst.
  cbv zeta. unfold fetchMessages, names_last. simpl.
  pose proof (ChatFacts.Array_sort_perm (byCreatedAt gt) ms) as Hperm.
  pose proof (ChatFacts.Array_sort_sorted gt ms Hv) as Hsorted.
  split_and!; [done..| |].
  - split.
    + by intros ->.
    + intros Hnone. apply fmap_None, last_None in Hnone.
      rewrite Hnone in Hperm. by apply Permutation_nil_l in Hperm.
  - intros i Hi. apply fmap_Some in Hi as (m & Hlast & ->).
    exists m. split_and!; [|done|].
    + rewrite <- Hperm. rewrite last_lookup in Hlast.
      by eapply list_elem_of_lookup_2.
    + intros x Hx. eapply sorted_last_is_latest; [|done..|by rewrite Hperm].
      by rewrite Hperm.
Qed.

Lemma fetched_messages_sorted_latest_witness :
  let ms := [Scenario.msg "m2" "2024-01-01T00:00:02.000Z";
             Scenario.msg "m3" "2024-01-01T00:00:03.000Z";
             Scenario.msg "m1" "2024-01-01T00:00:01.000Z"] in
  let h' := fetchMessages Scenario.utc (resolved ms) 0 (Scenario.hook [] []) in
  ChatMessage.id <$> messages (state h') = ["m1"; "m2"; "m3"]
  ∧ lastMessageId (state h') = Some "m3"
  ∧ ascending Scenario.utc (messages (state h')).
Proof.
  split; [reflexivity|]. split; [reflexivity|].
  refine (proj1 (proj2 (fetched_messages_sorted_latest Scenario.utc
    [Scenario.msg "m2" "2024-01-01T00:00:02.000Z";
     Scenario.msg "m3" "2024-01-01T00:00:03.000Z";
     Scenario.msg "m1" "2024-01-01T00:00:01.000Z"] 0 (Scenario.hook [] [])
    eq_refl _))).
  repeat constructor; by vm_compute.
Defined.

Lemma hook_eq (h h' : Hook) :
  participants (state h') = participants (state h) →
  messages (state h') = messages (state h) →
  isConnected (state h') = isConnected (state h) →
  isLoading (state h') = isLoading (state h) →
  error (state h') = error (state h) →
  lastMessageId (state h') = lastMessageId (state h) →
  isMountedRef h' = isMountedRef h → channelRef h' = channelRef h →
  reconnectTimeoutRef h' = reconnectTimeoutRef h →
  timers h' = timers h → nextHandle h' = nextHandle h → h' = h.
Proof.
  destruct h as [[] ? ? ? ? ?], h' as [[] ? ? ? ? ?]; simpl.
  by intros -> -> -> -> -> -> -> -> -> -> ->.
Qed.

(** X9: An UPDATE event for a participant that is not listed changes nothing:
    no participant is added for it. *)
Theorem update_of_unlisted_participant (u : ParticipantRow) (h : Hook) :
  p_id u ∉ (ChatParticipant.id <$> participants (state h)) →
  update u h = h.
Proof.
  intros Hnot. unfold update, on_participant_UPDATE.
  destruct (isMountedRef h) eqn:Hm; [|done].
  apply hook_eq; try done. simpl.
  rewrite <- (list_fmap_id (participants (state h))) at 2.
  apply list_fmap_ext. intros i p Hp. simpl.
  case_bool_decide as Hid; [|done].
  destruct Hnot. rewrite <- Hid. apply list_elem_of_fmap_2.
  by eapply list_elem_of_lookup_2.
Qed.

Lemma update_of_unlisted_participant_witness :
  let h := Scenario.hook [] [Scenario.member "p1" true] in
  let u := Scenario.member_row "p9" "2024-01-01T00:00:03.000Z" false in
  participants (state (update u h)) = [Scenario.member "p1" true].
Proof.
  refine (f_equal (λ x, participants (state x))
    (update_of_unlisted_participant
       (Scenario.member_row "p9" "2024-01-01T00:00:03.000Z" false)
       (Scenario.hook [] [Scenario.member "p1" true]) _)).
  simpl. by intros ?%list_elem_of_singleton.
Defined.

(** X10: UPDATE events compose: of two events for the same participant the
    later one wins (so an event repeated changes nothing more), and events
    for different participants can arrive in either order. *)
Theorem updates_compose (u1 u2 : ParticipantRow) (h : Hook) :
  (p_id u1 = p_id u2 → update u2 (update u1 h) = update u2 h)
  ∧ (p_id u1 ≠ p_id u2 →
     update u2 (update u1 h) = update u1 (update u2 h)).
Proof.
  unfold update, on_participant_UPDATE, setState.
  destruct h as [[ms ps c l e lm] [] ch rt tm nh]; simpl; [|done].
  split; intros Hid; do 2 f_equal; rewrite <- !list_fmap_compose;
    apply list_fmap_ext; intros i p _; simpl.
  - rewrite <- Hid.
    destruct (bool_decide (ChatParticipant.id p = p_id u1)) eqn:H1; simpl;
      by rewrite ?H1.
  - destruct (bool_decide (ChatParticipant.id p = p_id u1)) eqn:H1,
             (bool_decide (ChatParticipant.id p = p_id u2)) eqn:H2;
      simpl; rewrite ?H1, ?H2; try done.
    apply bool_decide_eq_true in H1, H2. congruence.
Qed.

Lemma updates_compose_witness :
  let h := Scenario.hook [] [Scenario.member "p1" true] in
  let u := Scenario.member_row "p1" "2024-01-01T00:00:03.000Z" false in
  update u (update u h) = update u h.
Proof.
  exact (proj1 (updates_compose
    (Scenario.member_row "p1" "2024-01-01T00:00:03.000Z" false)
    (Scenario.member_row "p1" "2024-01-01T00:00:03.000Z" false)
    (Scenario.hook [] [Scenario.member "p1" true])) eq_refl).
Defined.

(** X11: Sending a message does not list it: whatever the request does,
    sendMessage and joinRoom leave messages, participants and
    lastMessageId alone and updateParticipantStatus the whole hook, so a
    message that was not listed is not listed when sendMessage returns.
    Of what is merged afterwards only an INSERT event that carries a row
    or a fetch of the messages that succeeds changes the list of messages
    (a status of the subscription does not), and the INSERT event that
    carries the row of the message sent lists it, last, and makes it
    lastMessageId. *)
Theorem sent_message_is_listed_by_the_feed gt (roomId : string)
    (sent : settled ChatMessage.t) (joined : settled ChatParticipant.t)
    (seen : settled ChatParticipant.t) (row : MessageRow)
    (now : Z) (h : Hook) :
  isMountedRef h = true →
  let h1 := (sendMessage roomId sent now h).2 in
  let h2 := (joinRoom roomId joined now h).2 in
  messages (state h1) = messages (state h)
  ∧ participants (state h1) = participants (state h)
  ∧ lastMessageId (state h1) = lastMessageId (state h)
  ∧ messages (state h2) = messages (state h)
  ∧ participants (state h2) = participants (state h)
  ∧ lastMessageId (state h2) = lastMessageId (state h)
  ∧ (updateParticipantStatus roomId seen h).2 = h
  ∧ (∀ m, sent = resolved m → m ∉ messages (state h) →
       m ∉ messages (state h1))
  ∧ (∀ ev, messages (state (merge gt ev h1)) ≠ messages (state h1) →
       (∃ r, ev = message_INSERT (Some r))
       ∨ (∃ ms t, ev = fetched_messages (resolved ms) t))
  ∧ (∀ status, messages (state (on_status status h1))
               = messages (state h1))
  ∧ messages (state (on_message_INSERT (Some row) h1))
    = messages (state h) ++ [row_message row]
  ∧ lastMessageId (state (on_message_INSERT (Some row) h1))
    = Some (m_id row).
Proof.
  intros Hm. destruct h as [st mounted ch rt tm nh]. simpl in Hm. subst.
  cbv zeta.
  assert (Hkeep : messages (state (sendMessage roomId sent now
                    {| state := st; isMountedRef := true; channelRef := ch;
                       reconnectTimeoutRef := rt; timers := tm;
                       nextHandle := nh |}).2) = messages st).
  { unfold sendMessage. by destruct (String.eqb roomId ""), sent. }
  split_and!.
  - exact Hkeep.
  - unfold sendMessage. by destruct (String.eqb roomId ""), sent.
  - unfold sendMessage. by destruct (String.eqb roomId ""), sent.
  - unfold joinRoom. by destruct (String.eqb roomId ""), joined.
  - unfold joinRoom. by destruct (String.eqb roomId ""), joined.
  - unfold joinRoom. by destruct (String.eqb roomId ""), joined.
  - unfold updateParticipantStatus. by destruct (String.eqb roomId "").
  - intros m _ Hnot. by rewrite Hkeep.
  - intros ev Hchanged.
    destruct ev as [[ms|msg] t|[ps|msg] t|[r|]|[r|]|[r|]]; eauto; exfalso;
      apply Hchanged; unfold sendMessage;
      destruct (String.eqb roomId ""), sent; reflexivity.
  - intros status. unfold on_status, sendMessage.
    destruct (String.eqb roomId ""), sent; simpl; by case_match.
  - unfold sendMessage. by destruct (String.eqb roomId ""), sent.
  - unfold sendMessage. by destruct (String.eqb roomId ""), sent.
Qed.

Lemma sent_message_is_listed_by_the_feed_witness :
  let h := Scenario.hook [Scenario.msg "m1" "2024-01-01T00:00:01.000Z"] [] in
  let m2 := Scenario.msg "m2" "2024-01-01T00:00:02.000Z" in
  messages (state (sendMessage "room" (resolved m2) 0 h).2)
  = [Scenario.msg "m1" "2024-01-01T00:00:01.000Z"].
Proof.
  exact (proj1 (sent_message_is_listed_by_the_feed Scenario.utc "room"
    (resolved (Scenario.msg "m2" "2024-01-01T00:00:02.000Z"))
    (rejected "") (rejected "")
    (Scenario.msg_row "m2" "2024-01-01T00:00:02.000Z") 0
    (Scenario.hook [Scenario.msg "m1" "2024-01-01T00:00:01.000Z"] [])
    eq_refl)).
Defined.

(** X12: A request of the API client pauses for at most 6000 ms in all; one
    that ends in an error has made all four fetches and paused for exactly
    6000 ms, and one whose first attempt succeeds makes that one fetch and
    does not pause. Every fetch goes to the url asked for. *)
Theorem request_pause_budget {T} (net : nat → FetchResult T) (url : string) :
  0 <= paused (makeRequest net url 0).2 <= 6000
  ∧ ((∃ e, (makeRequest net url 0).1 = rejected e) →
     paused (makeRequest net url 0).2 = 6000
     ∧ length (fetches (makeRequest net url 0).2) = 4%nat)
  ∧ ((∃ data, attempt (net 0%nat) = resolved data) →
     (makeRequest net url 0).2 = [io_fetch url])
  ∧ Forall (λ u, u = url) (fetches (makeRequest net url 0).2).
Proof.
  destruct (ChatFacts.makeRequest_from net url RETRY_ATTEMPTS 0 eq_refl)
    as (n & Hn & Hrun & Hfail & Hend).
  simpl in Hrun, Hend. rewrite Hrun. cbn [fst snd].
  unfold RETRY_ATTEMPTS in Hn.
  assert (Hcases : n = 0%nat ∨ n = 1%nat ∨ n = 2%nat ∨ n = 3%nat) by lia.
  split; [|split; [|split]].
  - unfold paused. rewrite ChatFacts.backoff_sleeps.
    destruct Hcases as [-> | [-> | [-> | ->] ] ]; simpl;
      unfold RETRY_DELAY; lia.
  - intros [e He]. destruct Hend as [ [data Hd] | Hn3 ]; [congruence|subst n].
    split; [|apply ChatFacts.backoff_fetches].
    unfold paused. by rewrite ChatFacts.backoff_sleeps.
  - intros [data Hd]. destruct n as [|n]; [done|].
    destruct (Hfail 0%nat ltac:(lia)) as [e He]. congruence.
  - destruct Hcases as [-> | [-> | [-> | ->] ] ]; repeat constructor.
Qed.

Lemma request_pause_budget_witness :
  let down : nat → FetchResult unit := λ _, network_error "offline" in
  paused (makeRequest down "/api/chat/participants" 0).2 = 6000.
Proof.
  exact (proj1 (proj1 (proj2 (request_pause_budget (T:=unit)
    (λ _, network_error "offline") "/api/chat/participants"))
    (ex_intro _ "offline" eq_refl))).
Defined.

End ChatSessionFacts.

(* ===================================================================== *)
(** * Further properties of the upload route *)
(* ===================================================================== *)

Module UploadOutcomeFacts.
Import JS Upload UploadOutcome UploadFacts.

#[local] Arguments parseInt : simpl never.
#[local] Arguments Date_toISOString : simpl never.
#[local] Arguments truthy : simpl never.
#[local] Arguments or_else : simpl never.
#[local] Arguments configured : simpl never.
#[local] Arguments expiry : simpl never.
#[local] Arguments add : simpl never.
#[local] Arguments mul : simpl never.

(** X13: POST never throws: whatever the services do, it answers, with one of
    five status codes, and the body reports success exactly when the
    status is 200. *)
Theorem POST_always_answers `{Lib} env svc request (w : World) :
  ∃ resp w', POST env svc request w = (resolved resp, w')
    ∧ status resp ∈ [200; 400; 429; 500; 503]
    ∧ (status resp = 200 ↔ is_success resp = true).
Proof.
  run. branches; (eexists; eexists; split; [reflexivity|]); cbn.
  all: split; [set_solver|done].
Qed.

(** X14: A request that is turned away (service not configured, rate limit, no
    file, type or size refused) has touched nothing: bucket, tables and
    cache are as before, no id or token was drawn and the scanner was not
    called. *)
Theorem turned_away_touches_nothing `{Lib} env svc request (w : World)
    resp w' :
  POST env svc request w = (resolved resp, w') →
  turned_away resp →
  stores_unchanged w w'
  ∧ ids_drawn w' = ids_drawn w
  ∧ secure_ids_drawn w' = secure_ids_drawn w
  ∧ (step_scanBuffer ∉ taken w w')
  ∧ (status resp = 503 → w' = w).
Proof.
  unfold turned_away, stores_unchanged.
  run. branches; intros [= <- <-] Hturned.
  all: try (exfalso; destruct Hturned as [Ht|[Ht|[Ht|[Ht|Ht]]]];
            discriminate Ht).
  all: cbn; rewrite <- ?app_assoc; cbn.
  all: split_and!; try reflexivity; try discriminate.
  all: try (erewrite taken_app by reflexivity; intros Hin; not_taken Hin).
  all: try (unfold taken; rewrite drop_all; apply not_elem_of_nil).
  all: try (intros _; by destruct w).
Qed.

Lemma turned_away_touches_nothing_witness :
  let form := Scenario.form_of Scenario.script None None None in
  let svc := Scenario.services form Scenario.clean Scenario.stored None in
  let run := POST (H:=Scenario.lib) Scenario.env svc Scenario.request
               Scenario.empty_world in
  run.1 = resolved (error_response "File type not allowed" 400)
  ∧ secure_ids_drawn run.2 = 0%nat.
Proof.
  cbv zeta. split; [reflexivity|].
  exact (proj1 (proj2 (proj2 (turned_away_touches_nothing (H:=Scenario.lib)
    Scenario.env
    (Scenario.services (Scenario.form_of Scenario.script None None None)
       Scenario.clean Scenario.stored None)
    Scenario.request Scenario.empty_world _ _ eq_refl
    (or_intror (or_intror (or_intror (or_introl eq_refl)))))))).
Defined.

(** X15: A request only ever adds to the bucket and the tables: at most
    one object, one row and one audit record, each at the end, nothing
    being removed or rewritten. The cache is left as it is or gets the
    entry of this request under the key of the download token drawn:
    whatever was stored under that key before is replaced, every other
    key keeps what it had and no key is removed. A row is written only
    after its object, and the cache entry only after the row. *)
Theorem POST_only_adds `{Lib} env svc request (w : World) r w' :
  POST env svc request w = (r, w') →
  let key := REDIS_KEYS_FILE_UPLOAD (generateSecureId (secure_ids_drawn w)) in
  grown (bucket w) (bucket w')
  ∧ grown (files w) (files w')
  ∧ grown (audit_logs w) (audit_logs w')
  ∧ (redis w' = redis w
     ∨ redis w'
       = <[key := {| cached_fileId := generateId (ids_drawn w);
                     cached_editToken :=
                       generateSecureId (S (secure_ids_drawn w));
                     ttl_seconds := 86400 |}]> (redis w))
  ∧ (∀ k, k ≠ key → redis w' !! k = redis w !! k)
  ∧ (∀ k, is_Some (redis w !! k) → is_Some (redis w' !! k))
  ∧ (redis w !! key = None → redis w ⊆ redis w')
  ∧ (files w' ≠ files w → bucket w' ≠ bucket w)
  ∧ (redis w' ≠ redis w → files w' ≠ files w).
Proof.
  assert (Hgrew : ∀ A (l : list A) x, l ++ [x] ≠ l).
  { intros A l x Heq. apply (f_equal length) in Heq.
    rewrite length_app in Heq. simpl in Heq. lia. }
  cbv zeta. unfold grown. run. branches; intros [= <- <-]; cbn.
  all: split_and!; eauto; try done.
  all: try (intros _; apply Hgrew).
  all: try (intros k Hk; by rewrite lookup_insert_ne).
  all: try (intros k Hk; rewrite lookup_insert_is_Some;
            destruct (decide
              (REDIS_KEYS_FILE_UPLOAD (generateSecureId (secure_ids_drawn w))
               = k)); [by left|by right]).
  all: intros Hfresh; by apply insert_subseteq.
Qed.

Lemma POST_only_adds_witness :
  let form := Scenario.form_of Scenario.notes None None None in
  let svc := Scenario.services form Scenario.clean Scenario.stored None in
  let run := POST (H:=Scenario.lib) Scenario.env svc Scenario.request
               Scenario.empty_world in
  length (files run.2) = 1%nat ∧ bucket run.2 ≠ [].
Proof.
  cbv zeta. split; [reflexivity|].
  destruct (POST_only_adds (H:=Scenario.lib) Scenario.env
       (Scenario.services (Scenario.form_of Scenario.notes None None None)
          Scenario.clean Scenario.stored None)
       Scenario.request Scenario.empty_world _ _
       (surjective_pairing _))
    as (_ & _ & _ & _ & _ & _ & _ & Hobject & _).
  apply Hobject. discriminate.
Defined.

Lemma run_with {A B} (p : A * B) (a : A) : p.1 = a → p = (a, p.2).
Proof. destruct p as [x y]. simpl. by intros ->. Qed.

Lemma taken_refl (w : World) : taken w w = [].
Proof. unfold taken. apply drop_all. Qed.

(** X16: Nothing is rolled back. When the insert of the metadata fails, the
    object uploaded just before stays in the bucket with no row and no
    cache entry; when the cache fails, object and row stay and the answer
    is 500 all the same. *)
Theorem nothing_is_rolled_back `{Lib} env svc request (w : World) r w' :
  POST env svc request w = (r, w') →
  (is_Some (files_insert_error svc) → step_files_insert ∈ taken w w' →
     (∃ resp, r = resolved resp ∧ status resp = 500)
     ∧ (∃ obj, bucket w' = bucket w ++ [obj]
          ∧ object_fileId obj = generateId (ids_drawn w))
     ∧ files w' = files w ∧ redis w' = redis w)
  ∧ ((∃ e, redis_set svc = rejected e) → step_setWithExpiry ∈ taken w w' →
     (∃ resp, r = resolved resp ∧ status resp = 500)
     ∧ (∃ obj, bucket w' = bucket w ++ [obj]
          ∧ object_fileId obj = generateId (ids_drawn w))
     ∧ (∃ row, files w' = files w ++ [row]
          ∧ download_token row = generateSecureId (secure_ids_drawn w))
     ∧ redis w' = redis w).
Proof.
  run. branches; intros [= <- <-].
  all: cbn; rewrite <- ?app_assoc; cbn.
  all: first [rewrite taken_refl|erewrite !taken_app by reflexivity].
  all: split; [intros [e He] Hin|intros [e He] Hin].
  all: try not_taken Hin; try congruence.
  all: split_and!; eauto.
Qed.

Lemma nothing_is_rolled_back_witness :
  let form := Scenario.form_of Scenario.notes None None None in
  let svc := Scenario.services form Scenario.clean Scenario.stored
               (Some "duplicate key") in
  let run := POST (H:=Scenario.lib) Scenario.env svc Scenario.request
               Scenario.empty_world in
  run.1 = resolved
            (NextResponse_json
               (body_error "Failed to save file metadata in Supabase"
                           (Some "duplicate key")) (Some 500))
  ∧ length (bucket run.2) = 1%nat ∧ files run.2 = [].
Proof.
  cbv zeta. split; [reflexivity|]. split; [reflexivity|].
  refine (proj1 (proj2 (proj2 (proj1
    (nothing_is_rolled_back (H:=Scenario.lib) Scenario.env
       (Scenario.services (Scenario.form_of Scenario.notes None None None)
          Scenario.clean Scenario.stored (Some "duplicate key"))
       Scenario.request Scenario.empty_world _ _
       (surjective_pairing _)) (mk_is_Some _ _ eq_refl) _)))).
  vm_compute. do 6 right. left.
Defined.

Lemma expiry_of_no_number (svc : Services) (s : string) :
  s ≠ "" → s ≠ "never" → parseInt s = NaN →
  expiry svc (Some s) = rejected "Invalid time value".
Proof.
  intros Hs Hn Hnan. unfold expiry.
  destruct (truthy (Some s) && negb (bool_decide (Some s = Some "never")))
    eqn:Hc.
  - simpl. by rewrite Hnan.
  - apply not_true_iff_false in Hc. destruct Hc.
    apply expires_condition. eauto.
Qed.

(** X17: An expiresIn that is not 'never' and does not start with a number
    makes the request fail: no row and no cache entry are written and the
    answer is not a success; when the request got as far as a successful
    storage upload, the object stays in the bucket and the answer is
    500. *)
Theorem expiresIn_without_number_fails `{Lib} env svc request (w : World)
    form s resp w' :
  request_formData svc = resolved form →
  form_expiresIn form = Some s →
  s ≠ "" → s ≠ "never" → parseInt s = NaN →
  POST env svc request w = (resolved resp, w') →
  files w' = files w ∧ redis w' = redis w
  ∧ is_success resp = false
  ∧ (∀ res, storage_fetch svc = resolved res → res_ok res = true →
       res_json res = resolved () → step_storage_upload ∈ taken w w' →
       status resp = 500 ∧ ∃ obj, bucket w' = bucket w ++ [obj]).
Proof.
  intros Hf He Hs Hn Hnan.
  pose proof (expiry_of_no_number svc s Hs Hn Hnan) as Hexp.
  rewrite <- He in Hexp.
  run. rewrite Hf. cbn. branches; intros [= <- <-]; try congruence.
  all: cbn; rewrite <- ?app_assoc; cbn.
  all: first [rewrite taken_refl|erewrite !taken_app by reflexivity].
  all: split_and!; try reflexivity.
  all: intros res Hres Hok Hjson Hin; try not_taken Hin; try congruence.
  all: split; eauto.
Qed.

Lemma expiresIn_without_number_fails_witness :
  let form := Scenario.form_of Scenario.notes None (Some "soon") None in
  let svc := Scenario.services form Scenario.clean Scenario.stored None in
  let run := POST (H:=Scenario.lib) Scenario.env svc Scenario.request
               Scenario.empty_world in
  run.1 = resolved (error_response "Upload failed. Please try again." 500)
  ∧ files run.2 = [] ∧ length (bucket run.2) = 1%nat.
Proof.
  cbv zeta.
  assert (Hrun : (POST (H:=Scenario.lib) Scenario.env
            (Scenario.services
               (Scenario.form_of Scenario.notes None (Some "soon") None)
               Scenario.clean Scenario.stored None)
            Scenario.request Scenario.empty_world).1
          = resolved (error_response "Upload failed. Please try again." 500))
    by (vm_compute; reflexivity).
  split; [exact Hrun|]. split; [|vm_compute; reflexivity].
  exact (proj1 (expiresIn_without_number_fails (H:=Scenario.lib)
    Scenario.env
    (Scenario.services
       (Scenario.form_of Scenario.notes None (Some "soon") None)
       Scenario.clean Scenario.stored None)
    Scenario.request Scenario.empty_world
    (Scenario.form_of Scenario.notes None (Some "soon") None) "soon" _ _
    eq_refl eq_refl ltac:(discriminate) ltac:(discriminate) eq_refl
    (run_with _ _ Hrun))).
Defined.

(** X18: The row a request stores describes the file of the form: its name,
    size and type, the two tokens drawn for it, zero downloads, active,
    never downloaded, uploaded at the time read and by the client's
    address. A password that is not empty is stored as it was sent. A
    download limit that is not empty is stored as the integer parseInt
    reads from it, for integers up to 2^53 either side of zero, which a
    double holds exactly, and as null when parseInt reads no number. *)
Theorem stored_row_describes_the_upload `{Lib} env svc request (w : World)
    form file r w' row :
  request_formData svc = resolved form →
  form_file form = Some file →
  POST env svc request w = (r, w') →
  files w' = files w ++ [row] →
  original_name row = name file
  ∧ row_size row = size file
  ∧ mime_type row = type file
  ∧ download_token row = generateSecureId (secure_ids_drawn w)
  ∧ edit_token row = generateSecureId (S (secure_ids_drawn w))
  ∧ download_count row = 0
  ∧ is_active row = true
  ∧ last_downloaded_at row = None
  ∧ uploaded_at row = ISO (new_Date svc)
  ∧ uploaded_by row = getClientIP request
  ∧ (∀ pw, form_password form = Some pw → pw ≠ "" →
       password row = Some pw)
  ∧ (∀ limit, form_maxDownloads form = Some limit → limit ≠ "" →
       (parseInt limit = NaN → max_downloads row = None)
       ∧ (∀ n, parseInt limit = Num n → Z.abs n <= 2 ^ 53 →
            max_downloads row = Some n)).
Proof.
  intros Hf Hfile. run. rewrite Hf. cbn. rewrite Hfile. cbn.
  branches; intros [= <- <-] Hfiles; cbn in Hfiles.
  all: try (apply (f_equal length) in Hfiles;
            rewrite length_app in Hfiles; simpl in Hfiles; lia).
  all: apply app_inv_head in Hfiles; injection Hfiles as <-; cbn.
  all: match goal with
       | Hd : Date_toISOString (Num (new_Date _)) = resolved _ |- _ =>
           apply toISOString_resolved in Hd as (t & [= <-] & -> & _)
       end.
  all: split_and!; try reflexivity.
  all: intros x Hx Hne; rewrite Hx.
  all: assert (Ht : truthy (Some x) = true)
         by (apply not_false_iff_true; rewrite truthy_false;
             intros [?|[= ->]]; done).
  all: rewrite Ht; try reflexivity.
  all: simpl; split; [by intros ->|by intros n -> _].
Qed.

Lemma stored_row_describes_the_upload_witness :
  let form := Scenario.form_of Scenario.notes (Some "hunter2") None
                (Some "5 times") in
  let svc := Scenario.services form Scenario.clean Scenario.stored None in
  let run := POST (H:=Scenario.lib) Scenario.env svc Scenario.request
               Scenario.empty_world in
  let row :=
    {| original_name := "notes.txt"; row_size := 2;
       mime_type := "text/plain"; download_token := "tok-0";
       edit_token := "tok-1"; password := Some "hunter2";
       expiry_date := None; max_downloads := Some 5; download_count := 0;
       is_active := true; uploaded_at := ISO 1704067200001;
       uploaded_by := "203.0.113.7"; last_downloaded_at := None |} in
  files run.2 = [row] ∧ password row = Some "hunter2".
Proof.
  cbv zeta.
  assert (Hrow : files (POST (H:=Scenario.lib) Scenario.env
            (Scenario.services
               (Scenario.form_of Scenario.notes (Some "hunter2") None
                  (Some "5 times"))
               Scenario.clean Scenario.stored None)
            Scenario.request Scenario.empty_world).2
          = files Scenario.empty_world ++
            [{| original_name := "notes.txt"; row_size := 2;
                mime_type := "text/plain"; download_token := "tok-0";
                edit_token := "tok-1"; password := Some "hunter2";
                expiry_date := None; max_downloads := Some 5;
                download_count := 0; is_active := true;
                uploaded_at := ISO 1704067200001;
                uploaded_by := "203.0.113.7";
                last_downloaded_at := None |}])
    by (vm_compute; reflexivity).
  split; [exact Hrow|].
  pose proof (stored_row_describes_the_upload (H:=Scenario.lib)
    Scenario.env
    (Scenario.services
       (Scenario.form_of Scenario.notes (Some "hunter2") None
          (Some "5 times"))
       Scenario.clean Scenario.stored None)
    Scenario.request Scenario.empty_world
    (Scenario.form_of Scenario.notes (Some "hunter2") None (Some "5 times"))
    Scenario.notes _ _ _ eq_refl eq_refl (surjective_pairing _) Hrow)
    as (_ & _ & _ & _ & _ & _ & _ & _ & _ & _ & Hpw & _).
  exact (Hpw "hunter2" eq_refl ltac:(discriminate)).
Defined.

(** X19: The audit table gains at most one record per request, about the file
    id drawn for it and the client's address: 'virus_detected' when
    nothing was stored, 'file_upload' when the row was. Every row stored
    is audited, unless the database refuses the audit record. *)
Theorem stored_uploads_are_audited `{Lib} env svc request (w : World) r w' :
  POST env svc request w = (r, w') →
  (audit_logs w' = audit_logs w
   ∨ ∃ rec, audit_logs w' = audit_logs w ++ [rec]
       ∧ resource_type rec = "file"
       ∧ resource_id rec = generateId (ids_drawn w)
       ∧ ip_address rec = getClientIP request
       ∧ audit_user_agent rec = user_agent request
       ∧ ((action rec = "virus_detected"
           ∧ files w' = files w ∧ bucket w' = bucket w)
          ∨ (action rec = "file_upload" ∧ files w' ≠ files w)))
  ∧ (files w' ≠ files w → audit_insert_error svc = None →
     ∃ rec, audit_logs w' = audit_logs w ++ [rec]
            ∧ action rec = "file_upload").
Proof.
  assert (Hgrew : ∀ A (l : list A) x, l ++ [x] ≠ l).
  { intros A l x Heq. apply (f_equal length) in Heq.
    rewrite length_app in Heq. simpl in Heq. lia. }
  run. branches; intros [= <- <-]; cbn.
  all: split; [|intros Hrow Hok; try done; try congruence; eauto].
  all: first [by left|right; eexists; split; [reflexivity|]; cbn].
  all: split_and!; try reflexivity.
  all: first [left; done|right; split; [reflexivity|apply Hgrew]].
Qed.

Lemma stored_uploads_are_audited_witness :
  let form := Scenario.form_of Scenario.notes None None None in
  let svc := Scenario.services form Scenario.clean Scenario.stored None in
  let run := POST (H:=Scenario.lib) Scenario.env svc Scenario.request
               Scenario.empty_world in
  ∃ rec, audit_logs run.2 = [rec] ∧ action rec = "file_upload".
Proof.
  cbv zeta.
  refine (proj2 (stored_uploads_are_audited (H:=Scenario.lib) Scenario.env
    (Scenario.services (Scenario.form_of Scenario.notes None None None)
       Scenario.clean Scenario.stored None)
    Scenario.request Scenario.empty_world _ _ (surjective_pairing _))
    _ eq_refl).
  vm_compute. discriminate.
Defined.

(** What a request answered with 200 has done to the counters, the files
    table and the cache. *)
Lemma success_run `{Lib} env svc request (w : World) resp w' :
  POST env svc request w = (resolved resp, w') →
  status resp = 200 →
  ids_drawn w' = S (ids_drawn w)
  ∧ secure_ids_drawn w' = S (S (secure_ids_drawn w))
  ∧ redis w'
    = <[REDIS_KEYS_FILE_UPLOAD (generateSecureId (secure_ids_drawn w)) :=
          {| cached_fileId := generateId (ids_drawn w);
             cached_editToken := generateSecureId (S (secure_ids_drawn w));
             ttl_seconds := 86400 |}]> (redis w)
  ∧ ∃ row, files w' = files w ++ [row]
      ∧ download_token row = generateSecureId (secure_ids_drawn w)
      ∧ edit_token row = generateSecureId (S (secure_ids_drawn w)).
Proof.
  run. branches; intros [= <- <-]; cbn; try discriminate.
  all: intros _; split_and!; try reflexivity.
  all: eexists; split; [reflexivity|]; by cbn.
Qed.

(** X20: Two uploads in a row keep apart: with a generator that never repeats
    a value (and cache keys that tell tokens apart), their four tokens are
    all different, both rows are in the files table in the order of the
    uploads, and the cache entry of the first upload is still there, next
    to that of the second. *)
Theorem uploads_in_a_row_keep_apart `{Lib} env1 svc1 request1
    env2 svc2 request2 (w : World) resp1 w1 resp2 w2 :
  Inj (=) (=) generateSecureId →
  Inj (=) (=) REDIS_KEYS_FILE_UPLOAD →
  POST env1 svc1 request1 w = (resolved resp1, w1) → status resp1 = 200 →
  POST env2 svc2 request2 w1 = (resolved resp2, w2) → status resp2 = 200 →
  let n := secure_ids_drawn w in
  NoDup [generateSecureId n; generateSecureId (S n);
         generateSecureId (S (S n)); generateSecureId (S (S (S n)))]
  ∧ redis w2 !! REDIS_KEYS_FILE_UPLOAD (generateSecureId n)
    = Some {| cached_fileId := generateId (ids_drawn w);
              cached_editToken := generateSecureId (S n);
              ttl_seconds := 86400 |}
  ∧ redis w2 !! REDIS_KEYS_FILE_UPLOAD (generateSecureId (S (S n)))
    = Some {| cached_fileId := generateId (S (ids_drawn w));
              cached_editToken := generateSecureId (S (S (S n)));
              ttl_seconds := 86400 |}
  ∧ ∃ row1 row2, files w2 = files w ++ [row1; row2]
      ∧ download_token row1 = generateSecureId n
      ∧ edit_token row1 = generateSecureId (S n)
      ∧ download_token row2 = generateSecureId (S (S n))
      ∧ edit_token row2 = generateSecureId (S (S (S n))).
Proof.
  intros Hgen Hkey Hrun1 Hok1 Hrun2 Hok2. cbv zeta.
  destruct (success_run _ _ _ _ _ _ Hrun1 Hok1)
    as (Hid1 & Hsec1 & Hredis1 & row1 & Hfiles1 & Hd1 & He1).
  destruct (success_run _ _ _ _ _ _ Hrun2 Hok2)
    as (Hid2 & Hsec2 & Hredis2 & row2 & Hfiles2 & Hd2 & He2).
  rewrite Hid1, Hsec1 in *.
  assert (Hne : ∀ i j : nat, i ≠ j → generateSecureId i ≠ generateSecureId j).
  { intros i j Hij Heq. by apply Hij, Hgen. }
  split_and!.
  - repeat (apply NoDup_cons; split;
            [rewrite ?elem_of_cons, elem_of_nil;
             intros Hin; repeat destruct Hin as [Hin|Hin];
             try done; by (eapply Hne; [|exact Hin]; lia)|]).
    apply NoDup_nil_2.
  - rewrite Hredis2, lookup_insert_ne, Hredis1, lookup_insert_eq; [done|].
    intros Heq. apply Hkey in Heq. eapply Hne; [|exact Heq]. lia.
  - by rewrite Hredis2, lookup_insert_eq.
  - exists row1, row2. rewrite Hfiles2, Hfiles1, <- app_assoc. done.
Qed.

Lemma scenario_keys_distinct :
  Inj (=) (=) (REDIS_KEYS_FILE_UPLOAD (Lib := Scenario.lib)).
Proof. intros a b Heq. simpl in Heq. by injection Heq. Qed.

Lemma uploads_in_a_row_keep_apart_witness :
  let form := Scenario.form_of Scenario.notes None None None in
  let svc := Scenario.services form Scenario.clean Scenario.stored None in
  let first := POST (H:=Scenario.lib) Scenario.env svc Scenario.request
                 Scenario.empty_world in
  let second := POST (H:=Scenario.lib) Scenario.env svc Scenario.request
                  first.2 in
  redis second.2 !! "file_upload:tok-0"
  = Some {| cached_fileId := "file-0"; cached_editToken := "tok-1";
            ttl_seconds := 86400 |}.
Proof.
  cbv zeta.
  assert (H1 : (POST (H:=Scenario.lib) Scenario.env
            (Scenario.services
               (Scenario.form_of Scenario.notes None None None)
               Scenario.clean Scenario.stored None)
            Scenario.request Scenario.empty_world).1
          = resolved
              (NextResponse_json
                 (body_success "file-0"
                    "https://share.example.org/files/tok-0"
                    "https://share.example.org/files/manage/tok-1"
                    "notes.txt" 2 "text/plain") None))
    by (vm_compute; reflexivity).
  assert (H2 : (POST (H:=Scenario.lib) Scenario.env
            (Scenario.services
               (Scenario.form_of Scenario.notes None None None)
               Scenario.clean Scenario.stored None)
            Scenario.request
            (POST (H:=Scenario.lib) Scenario.env
               (Scenario.services
                  (Scenario.form_of Scenario.notes None None None)
                  Scenario.clean Scenario.stored None)
               Scenario.request Scenario.empty_world).2).1
          = resolved
              (NextResponse_json
                 (body_success "file-1"
                    "https://share.example.org/files/tok-2"
                    "https://share.example.org/files/manage/tok-3"
                    "notes.txt" 2 "text/plain") None))
    by (vm_compute; reflexivity).
  exact (proj1 (proj2 (uploads_in_a_row_keep_apart (H:=Scenario.lib)
    Scenario.env _ Scenario.request Scenario.env _ Scenario.request
    Scenario.empty_world _ _ _ _
    scenario_tokens_distinct scenario_keys_distinct
    (run_with _ _ H1) eq_refl (run_with _ _ H2) eq_refl))).
Defined.

(** *** Decimal texts *)

Lemma digit_of_char (d : N) :
  (d < 10)%N → digitValue (pretty_N_char d) = Some (Z.of_N d).
Proof.
  intros Hd.
  assert (d = 0 ∨ d = 1 ∨ d = 2 ∨ d = 3 ∨ d = 4 ∨ d = 5 ∨ d = 6 ∨ d = 7
          ∨ d = 8 ∨ d = 9)%N as Hc by lia.
  repeat destruct Hc as [->|Hc]; try reflexivity. by subst.
Qed.

(** Reading the digits of [x] in front of [s] shifts what was read before
    and adds [x]. *)
Lemma parseDigits_pretty (x : N) :
  (0 < x)%N → ∀ s acc, ∃ k : Z, 0 <= k
    ∧ parseDigits 10 (pretty_N_go x s) acc
      = parseDigits 10 s (Some (10 ^ k * default 0 acc + Z.of_N x)).
Proof.
  induction (N.lt_wf_0 x) as [x _ IH]. intros Hx s acc.
  rewrite pretty_N_go_step by done.
  assert (Hd : (x `mod` 10 < 10)%N) by (apply N.mod_lt; lia).
  pose proof (N.div_mod x 10 ltac:(lia)) as Hdm.
  destruct (decide (x `div` 10 = 0)%N) as [H0|Hpos].
  - rewrite H0, pretty_N_go_0. exists 1. split; [lia|]. simpl.
    rewrite digit_of_char by done.
    replace (Z.of_N (x `mod` 10) <? 10) with true by (symmetry; apply Z.ltb_lt; lia).
    do 2 f_equal. lia.
  - destruct (IH (x `div` 10)%N ltac:(apply N.div_lt; lia) ltac:(lia)
                (String (pretty_N_char (x `mod` 10)) s) acc)
      as (k & Hk & ->).
    exists (k + 1). split; [lia|]. simpl.
    rewrite digit_of_char by done.
    replace (Z.of_N (x `mod` 10) <? 10) with true by (symmetry; apply Z.ltb_lt; lia).
    do 2 f_equal. rewrite Z.pow_add_r by lia.
    assert (Z.of_N x = 10 * Z.of_N (x `div` 10) + Z.of_N (x `mod` 10)) by lia.
    lia.
Qed.

(** The text of a positive number starts with one of the digits 1 to 9. *)
Lemma pretty_starts_with_digit (x : N) :
  (0 < x)%N → ∀ s, ∃ d rest, (0 < d < 10)%N
    ∧ pretty_N_go x s = String (pretty_N_char d) rest.
Proof.
  induction (N.lt_wf_0 x) as [x _ IH]. intros Hx s.
  rewrite pretty_N_go_step by done.
  destruct (decide (x `div` 10 = 0)%N) as [H0|Hpos].
  - rewrite H0, pretty_N_go_0. exists (x `mod` 10)%N, s. split; [|done].
    pose proof (N.div_mod x 10 ltac:(lia)).
    pose proof (N.mod_lt x 10 ltac:(lia)). lia.
  - apply IH; [apply N.div_lt; lia|by apply N.neq_0_lt_0].
Qed.

Lemma parseInt_digits (d : N) (rest : string) :
  (0 < d < 10)%N →
  parseInt (String (pretty_N_char d) rest)
  = match parseDigits 10 (String (pretty_N_char d) rest) None with
    | Some v => Num v
    | None => NaN
    end
  ∧ parseInt (String "-" (String (pretty_N_char d) rest))
    = match parseDigits 10 (String (pretty_N_char d) rest) None with
      | Some v => Num (- v)
      | None => NaN
      end.
Proof.
  intros Hd.
  assert (d = 1 ∨ d = 2 ∨ d = 3 ∨ d = 4 ∨ d = 5 ∨ d = 6 ∨ d = 7
          ∨ d = 8 ∨ d = 9)%N as Hc by lia.
  repeat destruct Hc as [->|Hc]; subst; split; unfold parseInt; simpl;
    by destruct (parseDigits 10 rest _) as [[]|].
Qed.

(** parseInt reads back the decimal text of every integer. *)
Lemma parseInt_pretty (z : Z) : parseInt (pretty z) = Num z.
Proof.
  destruct z as [|p|p]; [reflexivity|..].
  - change (pretty (Z.pos p)) with (pretty_N_go (N.pos p) "").
    destruct (pretty_starts_with_digit (N.pos p) ltac:(lia) "")
      as (d & rest & Hd & Heq).
    destruct (parseDigits_pretty (N.pos p) ltac:(lia) "" None)
      as (k & Hk & Hval).
    rewrite Heq in *. rewrite (proj1 (parseInt_digits d rest Hd)), Hval.
    simpl. f_equal. lia.
  - change (pretty (Z.neg p)) with ("-" +:+ pretty_N_go (N.pos p) "").
    destruct (pretty_starts_with_digit (N.pos p) ltac:(lia) "")
      as (d & rest & Hd & Heq).
    destruct (parseDigits_pretty (N.pos p) ltac:(lia) "" None)
      as (k & Hk & Hval).
    rewrite Heq in *.
    change ("-" +:+ String (pretty_N_char d) rest)
      with (String "-" (String (pretty_N_char d) rest)).
    rewrite (proj2 (parseInt_digits d rest Hd)), Hval.
    simpl. f_equal. lia.
Qed.

Lemma pretty_is_a_number (z : Z) : pretty z ≠ "" ∧ pretty z ≠ "never".
Proof.
  pose proof (parseInt_pretty z) as Hz.
  split; intros Heq; rewrite Heq in Hz; discriminate Hz.
Qed.

(** X21: Numbers sent as decimal text are read back exactly: in the row a
    request stores, a download limit sent as the text of [n] is [n], for
    [n] up to 2^53 either side of zero, which a double holds exactly, and
    an expiresIn sent as the text of [h] gives the expiry date
    Date.now() + h * 60 * 60 * 1000 ms. *)
Theorem decimal_fields_are_read_back `{Lib} env svc request (w : World)
    form r w' row :
  request_formData svc = resolved form →
  POST env svc request w = (r, w') →
  files w' = files w ++ [row] →
  (∀ n : Z, Z.abs n <= 2 ^ 53 →
     form_maxDownloads form = Some (pretty n) →
     max_downloads row = Some n)
  ∧ (∀ h : Z, form_expiresIn form = Some (pretty h) →
       expiry_date row
       = Some (ISO (Date_now svc + h * 60 * 60 * 1000))).
Proof.
  intros Hf. run. rewrite Hf. cbn.
  branches; intros [= <- <-] Hfiles; cbn in Hfiles.
  all: try (apply (f_equal length) in Hfiles;
            rewrite length_app in Hfiles; simpl in Hfiles; lia).
  all: apply app_inv_head in Hfiles; injection Hfiles as <-; cbn.
  all: match goal with
       | He : expiry _ _ = resolved _ |- _ =>
           apply expiry_resolved in He as [Hdate _]
       end.
  all: split.
  all: try (intros h Hh; destruct (pretty_is_a_number h) as [Hne Hnv];
            destruct (Hdate (pretty h) Hh Hne Hnv) as (hours & Hp & ->);
            rewrite parseInt_pretty in Hp; by injection Hp as <-).
  all: intros n _ Hn; rewrite Hn; simpl.
  all: destruct (pretty_is_a_number n) as [Hne _].
  all: assert (Ht : truthy (Some (pretty n)) = true)
         by (apply not_false_iff_true; rewrite truthy_false;
             intros [?|[= ?]]; done).
  all: by rewrite Ht, parseInt_pretty.
Qed.

Lemma decimal_fields_are_read_back_witness :
  let form := Scenario.form_of Scenario.notes None (Some "24") (Some "5") in
  let svc := Scenario.services form Scenario.clean Scenario.stored None in
  let run := POST (H:=Scenario.lib) Scenario.env svc Scenario.request
               Scenario.empty_world in
  let row :=
    {| original_name := "notes.txt"; row_size := 2;
       mime_type := "text/plain"; download_token := "tok-0";
       edit_token := "tok-1"; password := None;
       expiry_date := Some (ISO 1704153600000); max_downloads := Some 5;
       download_count := 0; is_active := true;
       uploaded_at := ISO 1704067200001;
       uploaded_by := "203.0.113.7"; last_downloaded_at := None |} in
  files run.2 = [row] ∧ max_downloads row = Some 5.
Proof.
  cbv zeta.
  assert (Hrow : files (POST (H:=Scenario.lib) Scenario.env
            (Scenario.services
               (Scenario.form_of Scenario.notes None (Some "24") (Some "5"))
               Scenario.clean Scenario.stored None)
            Scenario.request Scenario.empty_world).2
          = files Scenario.empty_world ++
            [{| original_name := "notes.txt"; row_size := 2;
                mime_type := "text/plain"; download_token := "tok-0";
                edit_token := "tok-1"; password := None;
                expiry_date := Some (ISO 1704153600000);
                max_downloads := Some 5;
                download_count := 0; is_active := true;
                uploaded_at := ISO 1704067200001;
                uploaded_by := "203.0.113.7";
                last_downloaded_at := None |}])
    by (vm_compute; reflexivity).
  split; [exact Hrow|].
  exact (proj1 (decimal_fields_are_read_back (H:=Scenario.lib)
    Scenario.env
    (Scenario.services
       (Scenario.form_of Scenario.notes None (Some "24") (Some "5"))
       Scenario.clean Scenario.stored None)
    Scenario.request Scenario.empty_world
    (Scenario.form_of Scenario.notes None (Some "24") (Some "5"))
    _ _ _ eq_refl (surjective_pairing _) Hrow) 5 ltac:(simpl; lia)
    eq_refl).
Defined.

End UploadOutcomeFacts.

(* ===================================================================== *)
(** * Further properties of the management page *)
(* ===================================================================== *)

Module ManagePageFacts.
Import JS Manage ManagePage.

(** X22: Undo removes the token however often it was marked and leaves the
    other marks as they are; a file that was marked shows as marked until
    then. *)
Theorem undo_unmarks_everywhere (t : string) (p : Page) :
  (t ∉ filesToDelete (handleUndoDeleteExistingFile t p))
  ∧ (t ∈ filesToDelete (handleDeleteExistingFile t p))
  ∧ (∀ t', t' ≠ t →
       (t' ∈ filesToDelete (handleUndoDeleteExistingFile t p)
        ↔ t' ∈ filesToDelete p)
       ∧ (t' ∈ filesToDelete (handleDeleteExistingFile t p)
          ↔ t' ∈ filesToDelete p))
  ∧ handleUndoDeleteExistingFile t
      (handleDeleteExistingFile t (handleDeleteExistingFile t p))
    = handleUndoDeleteExistingFile t p.
Proof.
  destruct p as [tok auth err marked].
  unfold handleUndoDeleteExistingFile, handleDeleteExistingFile,
    setFilesToDelete; simpl.
  split_and!.
  - intros Hin. apply list_elem_of_filter in Hin as [Hne _]. by apply Hne.
  - apply elem_of_app. right. by left.
  - intros t' Hne. split.
    + rewrite list_elem_of_filter. tauto.
    + rewrite elem_of_app, list_elem_of_singleton. tauto.
  - f_equal. rewrite !filter_app.
    rewrite (filter_cons_False _ t []) by (by intros ?).
    by rewrite filter_nil, !app_nil_r.
Qed.

Lemma undo_unmarks_everywhere_witness :
  let p := Scenario.page_with "0123456789" ["a"; "b"; "a"] in
  filesToDelete (handleUndoDeleteExistingFile "a" p) = ["b"]
  ∧ "b" ∈ filesToDelete (handleUndoDeleteExistingFile "a" p).
Proof.
  split; [reflexivity|].
  apply (proj1 (proj2 (proj2 (undo_unmarks_everywhere "a"
           (Scenario.page_with "0123456789" ["a"; "b"; "a"]))))
           "b" ltac:(discriminate)).
  right. left.
Defined.

(** *** The pending files *)

Lemma filter_index_removes {A} (target : nat) (l : list A) (i : nat) :
  filter_index (λ _ j, negb (j =? target)%nat) i l
  = if (target <? i)%nat then l
    else take (target - i) l ++ drop (S (target - i)) l.
Proof.
  revert i. induction l as [|x l IH]; intros i.
  - simpl. rewrite take_nil. by destruct (target <? i)%nat.
  - simpl. rewrite IH.
    destruct (Nat.eqb_spec i target) as [->|Hne]; simpl.
    + replace (target <? S target)%nat with true
        by (symmetry; apply Nat.ltb_lt; lia).
      replace (target <? target)%nat with false
        by (symmetry; apply Nat.ltb_ge; lia).
      by rewrite Nat.sub_diag.
    + destruct (Nat.ltb_spec target i) as [Hlt|Hge].
      * replace (target <? S i)%nat with true
          by (symmetry; apply Nat.ltb_lt; lia). done.
      * replace (target <? S i)%nat with false
          by (symmetry; apply Nat.ltb_ge; lia).
        replace (target - i)%nat with (S (target - S i)) by lia. done.
Qed.

(** X23: Removing a pending file takes out the one at that position and keeps
    the others in order; a position past the end changes nothing; and a
    file just added is removed again by the position it got. *)
Theorem remove_pending_takes_one_out (idx : nat) (s : State)
    (f : LocalFile) :
  pendingFiles (handleRemovePendingFile idx s) = delete idx (pendingFiles s)
  ∧ ((idx < length (pendingFiles s))%nat →
     S (length (pendingFiles (handleRemovePendingFile idx s)))
     = length (pendingFiles s))
  ∧ ((length (pendingFiles s) ≤ idx)%nat →
     handleRemovePendingFile idx s = s)
  ∧ handleRemovePendingFile (length (pendingFiles s))
      (handleAddFiles (Some [f]) s) = s
  ∧ page (handleRemovePendingFile idx s) = page s.
Proof.
  assert (Hdel : ∀ l : list LocalFile,
            filter_index (λ _ j, negb (j =? idx)%nat) 0 l = delete idx l).
  { intros l. rewrite filter_index_removes, Nat.sub_0_r.
    symmetry. apply delete_take_drop. }
  destruct s as [p info ld up upd pending].
  unfold handleRemovePendingFile, handleAddFiles, setPendingFiles; simpl.
  split_and!.
  - apply Hdel.
  - intros Hlt. rewrite Hdel, length_delete; [lia|].
    by apply lookup_lt_is_Some.
  - intros Hge. f_equal.
    rewrite Hdel, delete_take_drop, take_ge, drop_ge by lia.
    apply app_nil_r.
  - f_equal. rewrite filter_index_removes, Nat.sub_0_r. simpl.
    rewrite take_app_length, drop_ge by (rewrite length_app; simpl; lia).
    by rewrite app_nil_r.
  - done.
Qed.

Lemma remove_pending_takes_one_out_witness :
  let a := {| local_name := "a.txt"; local_size := 1;
              webkitRelativePath := "" |} in
  let b := {| local_name := "b.txt"; local_size := 2;
              webkitRelativePath := "" |} in
  let s := handleAddFiles (Some [a; b]) initialState in
  pendingFiles (handleRemovePendingFile 0 s) = [b]
  ∧ S (length (pendingFiles (handleRemovePendingFile 0 s))) = 2%nat.
Proof.
  split; [reflexivity|].
  exact (proj1 (proj2 (remove_pending_takes_one_out 0
    (handleAddFiles
       (Some [{| local_name := "a.txt"; local_size := 1;
                 webkitRelativePath := "" |};
              {| local_name := "b.txt"; local_size := 2;
                 webkitRelativePath := "" |}]) initialState)
    {| local_name := "a.txt"; local_size := 1; webkitRelativePath := "" |}))
    ltac:(simpl; lia)).
Defined.

(** *** handleUpdateFiles *)

(** X24: With nothing selected handleUpdateFiles sends nothing and changes
    nothing. Otherwise, when its request ends, the page is no longer
    updating; an update that went through (an ok answer with a JSON body)
    empties both selections and shows the reloaded data, or none if the
    reload failed; anything else, an ok answer without a JSON body
    included, keeps both selections and the file's data and shows an
    error. *)
Theorem update_outcomes (fileId : string) (r : UpdateResponse)
    (reload : MetadataResponse) (s : State) :
  (pendingFiles s = [] → filesToDelete (page s) = [] →
   handleUpdateFiles_begin fileId s = (None, s))
  ∧ updateLoading (handleUpdateFiles_resume r reload s) = false
  ∧ match r with
    | update_response true (Some _) =>
        pendingFiles (handleUpdateFiles_resume r reload s) = []
        ∧ filesToDelete (page (handleUpdateFiles_resume r reload s)) = []
        ∧ loading (handleUpdateFiles_resume r reload s) = false
        ∧ fileInfo (handleUpdateFiles_resume r reload s)
          = match reload with
            | metadata_response true (Some data) => data
            | _ => None
            end
    | _ =>
        pendingFiles (handleUpdateFiles_resume r reload s) = pendingFiles s
        ∧ filesToDelete (page (handleUpdateFiles_resume r reload s))
          = filesToDelete (page s)
        ∧ fileInfo (handleUpdateFiles_resume r reload s) = fileInfo s
        ∧ error (page (handleUpdateFiles_resume r reload s)) ≠ ""
    end.
Proof.
  split_and!.
  - intros Hp Hd. unfold handleUpdateFiles_begin. by rewrite Hp, Hd.
  - by destruct r as [|[] [[]|]], reload as [|[] [[]|]].
  - destruct r as [|[] [err|]]; simpl; try done.
    + by destruct reload as [|[] [[]|]].
    + split_and!; try done. unfold or_else.
      destruct err as [e|]; [|done].
      destruct (String.eqb_spec e ""); [done|]. simpl. done.
Qed.

Lemma update_outcomes_witness :
  handleUpdateFiles_begin "f1" initialState = (None, initialState).
Proof.
  exact (proj1 (update_outcomes "f1" update_unreachable
                  metadata_unreachable initialState) eq_refl eq_refl).
Defined.

(** *** formatFileSize *)

Lemma floor_log_bounds (n : Z) :
  0 < n < 1024 ^ 4 →
  0 <= floor_log 1024 n < 4
  ∧ 1024 ^ floor_log 1024 n <= n < 1024 ^ (floor_log 1024 n + 1).
Proof.
  intros [Hpos Hlt]. unfold floor_log. change (Z.log2 1024) with 10.
  pose proof (Z.log2_spec n Hpos) as [Hlo Hhi].
  assert (Hlog : 0 <= Z.log2 n < 40).
  { split; [apply Z.log2_nonneg|]. apply Z.log2_lt_pow2; [done|].
    by replace (2 ^ 40) with (1024 ^ 4) by reflexivity. }
  set (i := Z.log2 n / 10).
  assert (Hi : 10 * i <= Z.log2 n < 10 * i + 10).
  { unfold i. pose proof (Z.div_mod (Z.log2 n) 10 ltac:(lia)).
    pose proof (Z.mod_pos_bound (Z.log2 n) 10 ltac:(lia)). lia. }
  assert (Hpow : ∀ k, 0 <= k → 1024 ^ k = 2 ^ (10 * k)).
  { intros k Hk. change 1024 with (2 ^ 10). rewrite <- Z.pow_mul_r; lia. }
  split; [lia|]. rewrite !Hpow by lia. split.
  - etrans; [|exact Hlo]. apply Z.pow_le_mono_r; lia.
  - eapply Z.lt_le_trans; [exact Hhi|]. apply Z.pow_le_mono_r; lia.
Qed.

(** X25: Below 1024^4 bytes formatFileSize is accurate: the unit is the one of
    the largest power of 1024 not above the size, the number shown lies
    between 1 and 1024 and is within half a hundredth of the size in that
    unit; sizes below 1024 are shown in bytes as they are. *)
Theorem formatFileSize_is_accurate (n : Z) :
  0 < n < 1024 ^ 4 →
  let i := floor_log 1024 n in
  let h := toFixed2 n (1024 ^ i) in
  1024 ^ i <= n < 1024 ^ (i + 1)
  ∧ (∃ u, sizes !! Z.to_nat i = Some u
        ∧ formatFileSize n = hundredths_toString h +:+ " " +:+ u)
  ∧ 100 <= h <= 102400
  ∧ 2 * Z.abs (100 * n - h * 1024 ^ i) <= 1024 ^ i
  ∧ (n < 1024 → formatFileSize n = pretty n +:+ " Bytes").
Proof.
  intros Hn. cbv zeta.
  destruct (floor_log_bounds n Hn) as [Hi Hrange].
  unfold formatFileSize.
  replace (n =? 0) with false by (symmetry; apply Z.eqb_neq; lia).
  replace (n <? 0) with false by (symmetry; apply Z.ltb_ge; lia).
  cbv zeta. unfold unit_at, toFixed2.
  set (i := floor_log 1024 n) in *.
  assert (Hcase : i = 0 ∨ i = 1 ∨ i = 2 ∨ i = 3) by lia.
  split; [done|].
  destruct Hcase as [Hc|[Hc|[Hc|Hc]]]; rewrite Hc in *; clear Hc.
  all: repeat match goal with
       | H : context [1024 ^ ?k] |- _ =>
           let v := eval vm_compute in (1024 ^ k) in
           change (1024 ^ k) with v in H
       | |- context [1024 ^ ?k] =>
           let v := eval vm_compute in (1024 ^ k) in
           change (1024 ^ k) with v
       end.
  all: split; [eexists; split; reflexivity|].
  all: match goal with
       | |- context [?a / ?b] =>
           pose proof (Z.div_mod a b ltac:(lia)) as Hdiv;
           pose proof (Z.mod_pos_bound a b ltac:(lia)) as Hmod
       end.
  all: split_and!; try lia.
  intros _. replace ((200 * n + 1) / (2 * 1)) with (n * 100) by lia.
  unfold hundredths_toString.
  rewrite Z_mod_mult, Z.div_mul by lia. done.
Qed.

Lemma formatFileSize_is_accurate_witness :
  formatFileSize 1536 = "1.5 KB" ∧ 100 <= toFixed2 1536 (1024 ^ 1) <= 102400.
Proof.
  split; [reflexivity|].
  exact (proj1 (proj2 (proj2
    (formatFileSize_is_accurate 1536 ltac:(split; reflexivity))))).
Defined.

(** *** From the token form to the management view *)

Lemma handleAuthenticate_short (p : Page) :
  (String.length (editToken p) < 10)%nat →
  handleAuthenticate p = setError "Invalid edit token." p.
Proof.
  intros Hlen. unfold handleAuthenticate.
  replace (10 <=? Z.of_nat (String.length (editToken p))) with false
    by (symmetry; apply Z.leb_gt; lia).
  by rewrite andb_false_r.
Qed.

Lemma handleAuthenticate_long (p : Page) :
  (10 ≤ String.length (editToken p))%nat →
  handleAuthenticate p = setError "" (setIsAuthenticated true p).
Proof.
  intros Hlen. unfold handleAuthenticate.
  replace (10 <=? Z.of_nat (String.length (editToken p))) with true
    by (symmetry; apply Z.leb_le; lia).
  destruct (String.eqb_spec (editToken p) "") as [Hempty|Hne]; [|done].
  rewrite Hempty in Hlen. simpl in Hlen. lia.
Qed.

(** X26: Submitting a token shorter than 10 characters stays on the token form
    with the error; a longer one starts loading the file's data, and the
    management view follows exactly when that data arrives with an ok
    answer whose body is not null. Otherwise the page reports the file as
    not found, with an error, except for a null body, which leaves no
    error. *)
Theorem token_then_metadata (s : State) (r : MetadataResponse) :
  isAuthenticated (page s) = false →
  ((String.length (editToken (page s)) < 10)%nat →
     view (authenticate s) = TokenForm
     ∧ error (page (authenticate s)) = "Invalid edit token."
     ∧ fileInfo (authenticate s) = fileInfo s)
  ∧ ((10 ≤ String.length (editToken (page s)))%nat →
     let s' := loadFileData_resume r (authenticate s) in
     view (authenticate s) = LoadingInfo
     ∧ view s' = match r with
                 | metadata_response true (Some (Some _)) => Management
                 | _ => FileNotFound
                 end
     ∧ (error (page s') = "" ↔ ∃ body, r = metadata_response true (Some body))).
Proof.
  intros Hno. destruct s as [p info ld up upd pend]. simpl in Hno.
  unfold authenticate, on_page. simpl.
  split; intros Hlen.
  - rewrite handleAuthenticate_short by done.
    destruct p; simpl in *; subst; done.
  - rewrite handleAuthenticate_long by done.
    destruct p; simpl in *; subst; simpl.
    split_and!; [done|by destruct r as [|[] [[]|]]|].
    destruct r as [|[] [body|]]; simpl; split; try done;
      try (by intros [? [=]]).
    by exists body.
Qed.

Lemma token_then_metadata_witness :
  let s := on_page (setEditToken "0123456789") initialState in
  view (authenticate s) = LoadingInfo
  ∧ view (loadFileData_resume metadata_unreachable (authenticate s))
    = FileNotFound.
Proof.
  destruct (proj2 (token_then_metadata
              (on_page (setEditToken "0123456789") initialState)
              metadata_unreachable eq_refl) ltac:(simpl; lia))
    as (Hload & Hview & _).
  split; [exact Hload|exact Hview].
Defined.

(** *** The update requests of the pages a user can get to *)

Lemma sound_initial : sound initialState.
Proof. split; [done|]. simpl. constructor. Qed.

Lemma view_TokenForm (s : State) :
  view s = TokenForm ↔ isAuthenticated (page s) = false.
Proof.
  unfold view. destruct (isAuthenticated (page s)); simpl; [|done].
  by destruct (loading s), (fileInfo s).
Qed.

Lemma sound_act (a : Action) (s : State) :
  sound s → offered a s = true → sound (act a s).
Proof.
  intros [Htok Hnodup] Hoff.
  destruct a as [v| |r|picked|idx|t|fileId|r reload]; simpl in *.
  - apply bool_decide_eq_true, view_TokenForm in Hoff.
    split; [|done]. simpl. by rewrite Hoff.
  - apply bool_decide_eq_true, view_TokenForm in Hoff.
    unfold authenticate, on_page. simpl. rewrite Hoff, andb_true_r.
    destruct (Nat.lt_ge_cases (String.length (editToken (page s))) 10).
    + rewrite handleAuthenticate_short by done. simpl. rewrite Hoff.
      by split.
    + rewrite handleAuthenticate_long by done. simpl. by split.
  - by destruct r as [|[] [[]|]].
  - by destruct picked.
  - done.
  - unfold click_row_button, isMarkedForDelete.
    unfold handleUndoDeleteExistingFile, handleDeleteExistingFile.
    destruct (decide (t ∈ filesToDelete (page s))) as [Hin|Hin];
      [rewrite bool_decide_true by done|rewrite bool_decide_false by done];
      (split; [done|]); simpl.
    + by apply NoDup_filter.
    + apply NoDup_app. split_and!; [done| |apply NoDup_singleton].
      intros x Hx ->%list_elem_of_singleton. done.
  - unfold handleUpdateFiles_begin. by case_match.
  - destruct r as [|[] [e|]]; simpl; try done.
    split; [|constructor]. by destruct reload as [|[] [[]|]].
Qed.

Lemma reachable_sound (s : State) : reachable s → sound s.
Proof.
  induction 1 as [|a s _ IH Hoff]; [apply sound_initial|].
  by apply sound_act.
Qed.

(** X27: On every page reached from the first render, a click on "Update
    Archive" that the page offers sends a request: it carries an edit
    token of at least 10 characters, names no file to delete twice, has
    one relative path for each file added, and changes something. *)
Theorem offered_update_sends_a_sound_request (s : State) (fileId : string) :
  reachable s →
  offered (click_update fileId) s = true →
  ∃ req, (handleUpdateFiles_begin fileId s).1 = Some req
    ∧ (10 ≤ String.length (form_editToken req))%nat
    ∧ NoDup (form_filesToDelete req)
    ∧ length (form_relativePaths req) = length (form_files req)
    ∧ (form_files req ≠ [] ∨ form_filesToDelete req ≠ [])
    ∧ updateLoading (handleUpdateFiles_begin fileId s).2 = true.
Proof.
  intros [Htok Hnodup]%reachable_sound Hoff. simpl in Hoff.
  apply andb_true_iff in Hoff as [Hview Hable].
  apply bool_decide_eq_true in Hview.
  unfold update_disabled in Hable. unfold handleUpdateFiles_begin.
  destruct (bool_decide (pendingFiles s = [])
            && bool_decide (filesToDelete (page s) = [])) eqn:Hnone;
    [done|].
  eexists. split; [done|]. simpl.
  split_and!; [|done|by rewrite length_fmap| |done].
  - apply Htok. unfold view in Hview. by destruct (isAuthenticated (page s)).
  - apply andb_false_iff in Hnone as [H|H]; apply bool_decide_eq_false in H;
      [by left|by right].
Qed.

Lemma offered_update_sends_a_sound_request_witness :
  reachable marked_page
  ∧ ∃ req, (handleUpdateFiles_begin "abc" marked_page).1 = Some req
      ∧ form_filesToDelete req = ["t1"]
      ∧ (10 ≤ String.length (form_editToken req))%nat.
Proof.
  assert (reachable marked_page) as Hreach.
  { unfold marked_page. repeat (apply reachable_act; [|reflexivity]).
    apply reachable_initial. }
  split; [exact Hreach|].
  destruct (offered_update_sends_a_sound_request marked_page "abc" Hreach
              eq_refl) as (req & Hreq & Hlen & _).
  exists req. split; [exact Hreq|]. split; [|exact Hlen].
  vm_compute in Hreq. by injection Hreq as <-.
Defined.

End ManagePageFacts.
